(** * LMM controller: reconciliation, health evaluation and bounded recovery

    A shallow embedding of [src/llmcontroller.py] (class [LMMController]).
    The cluster client, the HTTP prober, the clock and the configuration
    file are external: they are interfaces (type classes) over an abstract
    [World].  Every method of the controller is a computation that takes a
    world and returns the next world, the events it emitted (requests, log
    lines, sleeps, gauge updates) and either a value or a raised exception. *)

From Stdlib Require Import ZArith List Bool String Lia.
From stdpp Require Import gmap strings list fin_maps.
From Equations Require Import Equations.

Local Open Scope Z_scope.
Local Open Scope string_scope.
Local Open Scope list_scope.

(** ** Exceptions, log lines, data *)

(** The exception classes the source raises, catches or lets through.  All
    of them derive from Python's [Exception].  Those whose text [str(e)] the
    source puts into an exception it raises carry that text. *)
Inductive exn : Type :=
| ApiException (status : Z)
| ConfigException
| RuntimeError
| YAMLError (problem : string)
| FileNotFoundError (message : string)
| ValueError (message : string)
| KeyError (key : string)
| TypeError
| RequestException
| OtherException (what : string).

(** [client.rest.ApiException] and [ApiException] are the same class. *)
Definition is_ApiException (e : exn) : bool :=
  match e with ApiException _ => true | _ => false end.

Definition is_ConfigException (e : exn) : bool :=
  match e with ConfigException => true | _ => false end.

(** Every exception of the model is an instance of [Exception]. *)
Definition is_Exception (e : exn) : bool := true.

Inductive Result (A : Type) : Type :=
| Ok (value : A)
| Raise (e : exn).
Arguments Ok {A} value.
Arguments Raise {A} e.

Inductive Level : Type := INFO | WARNING | ERROR.

(** The f-strings handed to [logging_metrics.log], one constructor per
    format string, with the interpolated values as arguments. *)
Inductive Message : Type :=
| MsgKubeConfigFailed (e : exn)
| MsgInvalidYaml (e : exn)
| MsgConfigNotFound (config_path : string)
| MsgMissingField (field : string)
| MsgCreated (source_name : string)
| MsgCreateFailed (e : exn)
| MsgScaled (source_name : string) (replicas : Z)
| MsgScaleFailed (e : exn)
| MsgDeleted (source_name : string)
| MsgDeleteFailed (e : exn)
| MsgHealthCheckFailed (source_name : string) (e : exn)
| MsgDeploymentHealthFailed (e : exn)
| MsgRecoveryAttempt (retry_count max_retries : Z) (source_name : string)
| MsgRecoverySuccessful (source_name : string)
| MsgRecoveryAttemptFailed (retry_count : Z) (e : exn)
| MsgRecoveryExhausted (source_name : string) (max_retries : Z)
| MsgStarting
| MsgUnhealthyDetected (source_name : string)
| MsgControlLoopError (e : exn).

(** One entry of [log_sources].  [instances] is looked up only when a
    deployment is created, so an entry may come without it. *)
Record Instances : Type := { inst_min : option Z; inst_max : option Z }.

Record LogSource : Type := {
  name : string;
  enabled : bool;
  instances : option Instances
}.

(** The values found under the top-level keys of the configuration. *)
Inductive ConfigValue : Type :=
| Mapping (entries : gmap string string)
| Sources (entries : list LogSource)
| Scalar (text : string).

(** The parsed configuration document, a dict keyed by field name. *)
Abbreviation Config := (gmap string ConfigValue).

(** What [yaml.safe_load] returns: a dict for a mapping, [None] for an
    empty document, a [str] for a scalar string, a list for a sequence (a
    set for [!!set]), and a number, boolean, date or [bytes] for any other
    scalar. *)
#[warnings="-register-all"]
Inductive Document : Type :=
| Dict (entries : Config)
| NoneDocument
| Str (text : string)
| Sequence (items : list Document)
| OtherScalar.

(** [sub in text] for two strings. *)
Fixpoint occurs (sub text : string) : bool :=
  String.prefix sub text
  || match text with
     | EmptyString => false
     | String _ rest => occurs sub rest
     end.

(** [field in config]: a key of a dict, a substring of a [str], an element
    of a list or a set; [None] and the other scalars are not iterable. *)
Definition contains (config : Document) (field : string) : Result bool :=
  match config with
  | Dict entries => Ok (bool_decide (is_Some (entries !! field)))
  | Str text => Ok (occurs field text)
  | Sequence items =>
      Ok (existsb (fun item => match item with
                               | Str text => String.eqb text field
                               | _ => false
                               end) items)
  | NoneDocument | OtherScalar => Raise TypeError
  end.

(** [config[key]] for a string key: only a dict can be indexed by one. *)
Definition getitem (config : Document) (key : string) : Result ConfigValue :=
  match config with
  | Dict entries =>
      match entries !! key with
      | Some value => Ok value
      | None => Raise (KeyError key)
      end
  | _ => Raise TypeError
  end.

(** The fields of a [V1Deployment] the controller reads or writes. *)
Record V1Deployment : Type := {
  metadata_name : string;
  labels : gmap string string;
  spec_replicas : option Z;
  available_replicas : option Z
}.

Definition set_spec_replicas (d : V1Deployment) (replicas : Z) : V1Deployment :=
  {| metadata_name := metadata_name d;
     labels := labels d;
     spec_replicas := Some replicas;
     available_replicas := available_replicas d |}.

Record V1Pod : Type := { pod_ip : option string }.

(** The variable parts of the manifest built by [create_lfr_deployment]. *)
Record Manifest : Type := {
  manifest_name : string;
  manifest_namespace : string;
  manifest_replicas : Z;
  manifest_source : string
}.

Inductive PatchBody : Type :=
| ReplicasPatch (deployment : V1Deployment)
| RestartPatch (restartedAt : string).

(** Requests that leave the process. *)
Inductive Request : Type :=
| load_kube_config_request
| open_config_request (config_path : string)
| start_http_server_request (port : Z)
| create_request (body : Manifest) (namespace : string)
| read_request (deployment_name namespace : string)
| patch_request (deployment_name namespace : string) (body : PatchBody)
| delete_request (deployment_name namespace : string)
| list_deployment_request (namespace label_selector : string)
| list_pod_request (namespace label_selector : string)
| http_get_request (url : string) (timeout : Z).

(** The three mutations the reconciliation loop can ask for. *)
Inductive Action : Type :=
| Create (source_name : string) (replicas : Z)
| Scale (source_name : string) (replicas : Z)
| Delete (source_name : string).


Inductive Event : Type :=
| Requested (r : Request) (failure : option exn)
| Log (component : string) (level : Level) (msg : Message)
| Sleep (seconds : Z)
| SetGauge (metric : string) (label : option string) (value : Z)
| Invoke (a : Action).

(** A Python dict that is iterated: insertion-ordered association list.
    Assigning to a key that is present keeps its position. *)
Fixpoint dict_set {V : Type} (d : list (string * V)) (k : string) (v : V)
  : list (string * V) :=
  match d with
  | [] => [(k, v)]
  | (k', v') :: rest =>
      if String.eqb k' k then (k', v) :: rest else (k', v') :: dict_set rest k v
  end.

Fixpoint dict_get {V : Type} (d : list (string * V)) (k : string) : option V :=
  match d with
  | [] => None
  | (k', v') :: rest => if String.eqb k' k then Some v' else dict_get rest k
  end.

(** ** The external interfaces *)

Class ClusterStateClient (World : Type) : Type := {
  load_kube_config : World -> World * Result unit;
  create_namespaced_deployment : Manifest -> string -> World -> World * Result unit;
  read_namespaced_deployment : string -> string -> World -> World * Result V1Deployment;
  patch_namespaced_deployment : string -> string -> PatchBody -> World -> World * Result unit;
  delete_namespaced_deployment : string -> string -> World -> World * Result unit;
  list_namespaced_deployment : string -> string -> World -> World * Result (list V1Deployment);
  list_namespaced_pod : string -> string -> World -> World * Result (list V1Pod)
}.

Class EndpointProber (World : Type) : Type := {
  requests_get : string -> Z -> World -> World * Result Z
}.

Class Host (World : Type) : Type := {
  sleep : Z -> World -> World;
  strftime : World -> string;
  safe_load : string -> World -> World * Result Document;
  start_http_server : Z -> World -> World * Result unit
}.

(** [check_scaling_needs] and [get_current_replicas] are called by the
    control loop but defined nowhere in the repository: they are taken as
    an interface. *)
Class ScalingPolicy (World : Type) : Type := {
  check_scaling_needs : string -> World -> World * Result bool;
  get_current_replicas : string -> World -> World * Result Z
}.

(** ** Computations *)

Record Outcome (World A : Type) : Type := {
  final : World;
  emitted : list Event;
  result : Result A
}.
Arguments final {World A} o.
Arguments emitted {World A} o.
Arguments result {World A} o.

Section Controller.

Context {World : Type}.
Context `{!ClusterStateClient World, !EndpointProber World,
          !Host World, !ScalingPolicy World}.

Definition M (A : Type) : Type := World -> Outcome World A.

Definition ret {A} (a : A) : M A :=
  fun w => {| final := w; emitted := []; result := Ok a |}.

Definition raise {A} (e : exn) : M A :=
  fun w => {| final := w; emitted := []; result := Raise e |}.

Definition bind {A B} (m : M A) (k : A -> M B) : M B :=
  fun w =>
    let o := m w in
    match result o with
    | Ok a =>
        let o' := k a (final o) in
        {| final := final o'; emitted := emitted o ++ emitted o'; result := result o' |}
    | Raise e => {| final := final o; emitted := emitted o; result := Raise e |}
    end.

Notation "'let!' x ':=' m 'in' k" := (bind m (fun x => k))
  (at level 10, x name, m at level 100, k at level 200).
Notation "m >> k" := (bind m (fun _ => k))
  (at level 100, k at level 200, right associativity).

(** The events of what ran before, put in front of an outcome. *)
Definition prepend {A} (events : list Event) (o : Outcome World A) : Outcome World A :=
  {| final := final o; emitted := events ++ emitted o; result := result o |}.

(** [try: body except <classes> as e: handler e]. *)
Definition try_except {A} (body : M A) (classes : exn -> bool) (handler : exn -> M A)
  : M A :=
  fun w =>
    let o := body w in
    match result o with
    | Ok a => o
    | Raise e =>
        if classes e then
          let o' := handler e (final o) in
          {| final := final o'; emitted := emitted o ++ emitted o'; result := result o' |}
        else o
    end.

(** Runs [m] and hands its result, value or exception, to the caller. *)
Definition reify {A} (m : M A) : M (Result A) :=
  fun w =>
    let o := m w in
    {| final := final o; emitted := emitted o; result := Ok (result o) |}.

Definition emit (e : Event) : M unit :=
  fun w => {| final := w; emitted := [e]; result := Ok tt |}.

Definition failure_of {A} (r : Result A) : option exn :=
  match r with Ok _ => None | Raise e => Some e end.

(** A request to the outside: the world answers and moves on. *)
Definition request {A} (r : Request) (op : World -> World * Result A) : M A :=
  fun w =>
    let wr := op w in
    {| final := fst wr; emitted := [Requested r (failure_of (snd wr))]; result := snd wr |}.

Definition log (component : string) (level : Level) (msg : Message) : M unit :=
  emit (Log component level msg).

Definition time_sleep (seconds : Z) : M unit :=
  fun w => {| final := sleep seconds w; emitted := [Sleep seconds]; result := Ok tt |}.

Definition time_strftime : M string :=
  fun w => {| final := w; emitted := []; result := Ok (strftime w) |}.

(** A call that is answered by the world but is not a request. *)
Definition request_free {A} (op : World -> World * Result A) : M A :=
  fun w =>
    let wr := op w in
    {| final := fst wr; emitted := []; result := snd wr |}.

Definition lift {A} (r : Result A) : M A :=
  match r with Ok a => ret a | Raise e => raise e end.

Fixpoint for_each {A} (l : list A) (body : A -> M unit) : M unit :=
  match l with
  | [] => ret tt
  | x :: rest => body x >> for_each rest body
  end.

(** ** The controller *)

Record LMMController : Type := {
  config_path : string;
  config : Document;
  namespace : string
}.

Definition set_config (self : LMMController) (c : Document) : LMMController :=
  {| config_path := config_path self; config := c; namespace := namespace self |}.

Definition required_fields : list string := ["kubernetes"; "log_sources"].

(** [_validate_config] *)
Definition _validate_config (config : Document) : M unit :=
  for_each required_fields (fun field =>
    let! present := lift (contains config field) in
    if negb present then
      log "LMMController" ERROR (MsgMissingField field) >>
      raise (ValueError ("Missing required field: " +:+ field))
    else ret tt).

(** [_load_config] *)
Definition _load_config (config_path : string) : M Document :=
  try_except
    (let! config := request (open_config_request config_path) (safe_load config_path) in
     _validate_config config >>
     ret config)
    (fun e => match e with YAMLError _ | FileNotFoundError _ => true | _ => false end)
    (fun e =>
       match e with
       | YAMLError problem =>
           log "LMMController" ERROR (MsgInvalidYaml e) >>
           raise (ValueError ("Invalid YAML configuration: " +:+ problem))
       | _ =>
           log "LMMController" ERROR (MsgConfigNotFound config_path) >>
           raise (FileNotFoundError ("Configuration file not found: " +:+ config_path))
       end).

(** [config['kubernetes']['namespace']] *)
Definition kubernetes_namespace (config : Document) : Result string :=
  match getitem config "kubernetes" with
  | Raise e => Raise e
  | Ok (Mapping kubernetes) =>
      match kubernetes !! "namespace" with
      | None => Raise (KeyError "namespace")
      | Some ns => Ok ns
      end
  | Ok _ => Raise TypeError
  end.

(** [_setup_metrics]: the gauges are created and the metrics server started. *)
Definition _setup_metrics : M unit :=
  request (start_http_server_request 8000) (start_http_server 8000).

(** [__init__] *)
Definition __init__ (config_path : string) : M LMMController :=
  try_except
    (request load_kube_config_request load_kube_config)
    is_ConfigException
    (fun e =>
       log "LMMController" ERROR (MsgKubeConfigFailed e) >>
       raise RuntimeError) >>
  let! config := _load_config config_path in
  let! namespace := lift (kubernetes_namespace config) in
  _setup_metrics >>
  ret {| config_path := config_path; config := config; namespace := namespace |}.

Definition lfr (source_name : string) : string := "lfr-" +:+ source_name.

(** [create_lfr_deployment] *)
Definition create_lfr_deployment (self : LMMController) (source_name : string)
    (replicas : Z) : M unit :=
  emit (Invoke (Create source_name replicas)) >>
  try_except
    (let deployment := {| manifest_name := lfr source_name;
                          manifest_namespace := namespace self;
                          manifest_replicas := replicas;
                          manifest_source := source_name |} in
     request (create_request deployment (namespace self))
             (create_namespaced_deployment deployment (namespace self)) >>
     log "LMMController" INFO (MsgCreated source_name))
    is_ApiException
    (fun e => log "LMMController" ERROR (MsgCreateFailed e) >> raise e).

(** [scale_lfr_deployment] *)
Definition scale_lfr_deployment (self : LMMController) (source_name : string)
    (replicas : Z) : M unit :=
  emit (Invoke (Scale source_name replicas)) >>
  try_except
    (let! deployment :=
       request (read_request (lfr source_name) (namespace self))
               (read_namespaced_deployment (lfr source_name) (namespace self)) in
     let deployment := set_spec_replicas deployment replicas in
     request (patch_request (lfr source_name) (namespace self) (ReplicasPatch deployment))
             (patch_namespaced_deployment (lfr source_name) (namespace self)
                (ReplicasPatch deployment)) >>
     log "LMMController" INFO (MsgScaled source_name replicas))
    is_ApiException
    (fun e => log "LMMController" ERROR (MsgScaleFailed e) >> raise e).

(** [delete_lfr_deployment] *)
Definition delete_lfr_deployment (self : LMMController) (source_name : string)
  : M unit :=
  emit (Invoke (Delete source_name)) >>
  try_except
    (request (delete_request (lfr source_name) (namespace self))
             (delete_namespaced_deployment (lfr source_name) (namespace self)) >>
     log "LMMController" INFO (MsgDeleted source_name))
    is_ApiException
    (fun e => log "LMMController" ERROR (MsgDeleteFailed e) >> raise e).

(** Truth value of [pod.status.pod_ip]: [None] and the empty string are false. *)
Definition assigned_ip (pod : V1Pod) : option string :=
  match pod_ip pod with
  | Some "" => None
  | other => other
  end.

Definition health_url (ip : string) : string := "http://" +:+ ip +:+ ":8080/health".

(** The [for pod in pods.items] loop of [_check_endpoint_health]; its value
    is what the function returns: [False] from inside the loop or [True]
    after it. *)
Fixpoint probe_pods (pods : list V1Pod) : M bool :=
  match pods with
  | [] => ret true
  | pod :: rest =>
      match assigned_ip pod with
      | Some ip =>
          let url := health_url ip in
          let! status_code := request (http_get_request url 5) (requests_get url 5) in
          if negb (status_code =? 200)%Z then ret false else probe_pods rest
      | None => probe_pods rest
      end
  end.

Definition source_selector (source_name : string) : string :=
  "app=lfr,source=" +:+ source_name.

(** [_check_endpoint_health] *)
Definition _check_endpoint_health (self : LMMController) (source_name : string)
  : M bool :=
  try_except
    (let! pods :=
       request (list_pod_request (namespace self) (source_selector source_name))
               (list_namespaced_pod (namespace self) (source_selector source_name)) in
     probe_pods pods)
    is_Exception
    (fun e =>
       log "LMMController" ERROR (MsgHealthCheckFailed source_name e) >>
       ret false).

(** [available_replicas is not None and available_replicas == desired_replicas] *)
Definition deployment_healthy (deployment : V1Deployment) : bool :=
  match available_replicas deployment with
  | None => false
  | Some available =>
      match spec_replicas deployment with
      | Some desired => (available =? desired)%Z
      | None => false
      end
  end.

Definition bool_gauge (b : bool) : Z := if b then 1 else 0.

(** The [for deployment in deployments.items] loop of [monitor_lfr_health].
    [health_status] is the dict being filled; the loop hands back the dict
    as it is when control leaves the loop, normally or by an exception. *)
Fixpoint monitor_loop (self : LMMController) (items : list V1Deployment)
    (health_status : list (string * bool)) : M (list (string * bool) * Result unit) :=
  match items with
  | [] => ret (health_status, Ok tt)
  | deployment :: rest =>
      match labels deployment !! "source" with
      | None => ret (health_status, Raise (KeyError "source"))
      | Some source_name =>
          let! checked := reify (_check_endpoint_health self source_name) in
          match checked with
          | Raise e => ret (health_status, Raise e)
          | Ok endpoint_healthy =>
              let health_status :=
                dict_set health_status source_name
                  (deployment_healthy deployment && endpoint_healthy) in
              emit (SetGauge "lmm_lfr_health_status" (Some source_name)
                      (bool_gauge (deployment_healthy deployment && endpoint_healthy))) >>
              monitor_loop self rest health_status
          end
      end
  end.

(** [monitor_lfr_health] *)
Definition monitor_lfr_health (self : LMMController) : M (list (string * bool)) :=
  let! listed :=
    reify (request (list_deployment_request (namespace self) "app=lfr")
                   (list_namespaced_deployment (namespace self) "app=lfr")) in
  let! left :=
    match listed with
    | Raise e => ret ([], Raise e)
    | Ok deployments => monitor_loop self deployments []
    end in
  match left with
  | (health_status, Ok _) => ret health_status
  | (health_status, Raise e) =>
      if is_ApiException e then
        log "LMMController" ERROR (MsgDeploymentHealthFailed e) >>
        ret health_status
      else raise e
  end.

Definition max_retries : Z := 3.

(** How [_handle_unhealthy_deployment] is left: by the [return] after a
    successful check, or past the end of the [while]. *)
Inductive RecoveryState : Type := Healthy | Failed.

(** The [try] statement inside the [while] of
    [_handle_unhealthy_deployment], entered with [retry_count] already
    incremented.  Its value says whether the function returned from inside. *)
Definition recovery_attempt (self : LMMController) (source_name : string)
    (retry_count : Z) : M bool :=
  try_except
    (log "LMMController" INFO (MsgRecoveryAttempt retry_count max_retries source_name) >>
     let! deployment :=
       request (read_request (lfr source_name) (namespace self))
               (read_namespaced_deployment (lfr source_name) (namespace self)) in
     let! restartedAt := time_strftime in
     let patch := RestartPatch restartedAt in
     request (patch_request (lfr source_name) (namespace self) patch)
             (patch_namespaced_deployment (lfr source_name) (namespace self) patch) >>
     time_sleep 10 >>
     let! healthy := _check_endpoint_health self source_name in
     if healthy then
       log "LMMController" INFO (MsgRecoverySuccessful source_name) >>
       ret true
     else ret false)
    is_ApiException
    (fun e =>
       log "LMMController" ERROR (MsgRecoveryAttemptFailed retry_count e) >>
       ret false).

(** The [while retry_count < max_retries] loop and the line after it. *)
Equations? retry_loop (self : LMMController) (source_name : string) (retry_count : Z)
  : M RecoveryState by wf (Z.to_nat (max_retries - retry_count)) lt :=
  retry_loop self source_name retry_count with Z_lt_dec retry_count max_retries := {
    | left _ =>
        let! returned := recovery_attempt self source_name (retry_count + 1) in
        if (returned : bool) then ret Healthy
        else time_sleep 5 >> retry_loop self source_name (retry_count + 1)
    | right _ =>
        log "LMMController" ERROR (MsgRecoveryExhausted source_name max_retries) >>
        ret Failed }.
Proof. lia. Qed.

(** [_handle_unhealthy_deployment] *)
Definition _handle_unhealthy_deployment (self : LMMController) (source_name : string)
  : M RecoveryState :=
  retry_loop self source_name 0.

(** The body of [for source in self.config['log_sources']]. *)
Definition reconcile_source (self : LMMController)
    (current_sources : gmap string V1Deployment) (source : LogSource) : M unit :=
  let source_name := name source in
  if enabled source then
    match current_sources !! source_name with
    | None =>
        let! instances := lift (match instances source with
                                | Some i => Ok i
                                | None => Raise (KeyError "instances")
                                end) in
        let! min := lift (match inst_min instances with
                          | Some n => Ok n
                          | None => Raise (KeyError "min")
                          end) in
        create_lfr_deployment self source_name min
    | Some _ =>
        let! needed := request_free (check_scaling_needs source_name) in
        if (needed : bool) then
          let! current_replicas := request_free (get_current_replicas source_name) in
          scale_lfr_deployment self source_name (current_replicas + 1)
        else ret tt
    end
  else
    match current_sources !! source_name with
    | Some _ => delete_lfr_deployment self source_name
    | None => ret tt
    end.

(** [{d.metadata.labels['source']: d for d in current_deployments.items}] *)
Fixpoint index_by_source (items : list V1Deployment)
    (acc : gmap string V1Deployment) : Result (gmap string V1Deployment) :=
  match items with
  | [] => Ok acc
  | d :: rest =>
      match labels d !! "source" with
      | None => Raise (KeyError "source")
      | Some source_name => index_by_source rest (<[source_name := d]> acc)
      end
  end.

(** The reconciliation loop over what [self.config['log_sources']] holds. *)
Definition reconcile (self : LMMController)
    (current_sources : gmap string V1Deployment) (log_sources : list LogSource)
  : M unit :=
  for_each log_sources (reconcile_source self current_sources).

Definition for_log_sources (self : LMMController)
    (current_sources : gmap string V1Deployment) : M unit :=
  match getitem (config self) "log_sources" with
  | Raise e => raise e
  | Ok (Sources log_sources) => reconcile self current_sources log_sources
  | Ok (Mapping entries) =>
      if decide (entries = ∅) then ret tt else raise TypeError
  | Ok (Scalar text) =>
      if decide (text = "") then ret tt else raise TypeError
  end.

(** The health part of a cycle: every unhealthy source is handed to the
    recovery, in the order of the dict. *)
Definition recover_unhealthy (self : LMMController)
    (health_status : list (string * bool)) : M unit :=
  for_each health_status (fun item =>
    if negb (snd item) then
      log "LMMController" WARNING (MsgUnhealthyDetected (fst item)) >>
      _handle_unhealthy_deployment self (fst item) >>
      ret tt
    else ret tt).

(** The part of a pass under the comment [# Health check]. *)
Definition health_check (self : LMMController) : M unit :=
  let! health_status := monitor_lfr_health self in
  recover_unhealthy self health_status.

(** One pass of the [while True] of [manage_lfr_instances] after the
    configuration has been reloaded: the rest of the [try] block. *)
Definition cycle_steps (self : LMMController) : M unit :=
  let! current_deployments :=
    request (list_deployment_request (namespace self) "app=lfr")
            (list_namespaced_deployment (namespace self) "app=lfr") in
  let! current_sources := lift (index_by_source current_deployments ∅) in
  emit (SetGauge "lmm_lfr_deployments_total" None (Z.of_nat (size current_sources))) >>
  for_log_sources self current_sources >>
  health_check self >>
  time_sleep 30.

Definition on_cycle_error (e : exn) : M unit :=
  log "LMMController" ERROR (MsgControlLoopError e) >>
  time_sleep 60.

(** One pass of the [while True] of [manage_lfr_instances]: the [try]
    block with its [except Exception].  The controller comes back with the
    configuration it holds after the pass. *)
Definition cycle (self : LMMController) : M LMMController :=
  let! loaded := reify (_load_config (config_path self)) in
  match loaded with
  | Raise e => on_cycle_error e >> ret self
  | Ok config =>
      let self := set_config self config in
      try_except (cycle_steps self) is_Exception on_cycle_error >>
      ret self
  end.

Fixpoint cycles (n : nat) (self : LMMController) : M LMMController :=
  match n with
  | O => ret self
  | S n' => let! self := cycle self in cycles n' self
  end.

(** [manage_lfr_instances] never returns; its first [n] passes. *)
Definition manage_lfr_instances (n : nat) (self : LMMController) : M LMMController :=
  log "LMMController" INFO MsgStarting >>
  cycles n self.

(** ** The statements of the specification, as definitions *)

(** "AND over every member address with a known network address":
    the probes in order, an error counting as unhealthy. *)
Fixpoint all_probes_healthy (addresses : list string) (w : World) : bool :=
  match addresses with
  | [] => true
  | ip :: rest =>
      match requests_get (health_url ip) 5 w with
      | (w', Ok status_code) => (status_code =? 200)%Z && all_probes_healthy rest w'
      | (_, Raise _) => false
      end
  end.

(** [endpointHealthy] of the specification: the members of the source
    are listed, those without an address are left out, the others probed. *)
Definition endpointHealthy (self : LMMController) (source_name : string) (w : World)
  : bool :=
  match list_namespaced_pod (namespace self) (source_selector source_name) w with
  | (w', Ok pods) => all_probes_healthy (omap assigned_ip pods) w'
  | (_, Raise _) => false
  end.

(** "The source stays unhealthy through the attempts": from the world [w]
    on, each of the next [attempts] attempts either is refused by the
    cluster with an [ApiException], at the read or at the restart, or
    restarts the deployment and finds the endpoints unhealthy after the
    settle delay of 10; the next attempt starts after the delay of 5. *)
Fixpoint stays_unhealthy (self : LMMController) (source_name : string)
    (attempts : nat) (w : World) : bool :=
  match attempts with
  | O => true
  | S attempts' =>
      match read_namespaced_deployment (lfr source_name) (namespace self) w with
      | (w1, Raise e) =>
          is_ApiException e && stays_unhealthy self source_name attempts' (sleep 5 w1)
      | (w1, Ok _) =>
          match patch_namespaced_deployment (lfr source_name) (namespace self)
                  (RestartPatch (strftime w1)) w1 with
          | (w2, Raise e) =>
              is_ApiException e
              && stays_unhealthy self source_name attempts' (sleep 5 w2)
          | (w2, Ok _) =>
              negb (endpointHealthy self source_name (sleep 10 w2))
              && stays_unhealthy self source_name attempts'
                   (sleep 5 (final (_check_endpoint_health self source_name
                                      (sleep 10 w2))))
          end
      end
  end.

(** The actions a run asked for, in order: the calls of
    [create_lfr_deployment], [scale_lfr_deployment], [delete_lfr_deployment]. *)
Definition action_of (ev : Event) : option Action :=
  match ev with Invoke a => Some a | _ => None end.

Definition actions (events : list Event) : list Action := omap action_of events.

(** [minReplicas] of a source: [source['instances']['min']]. *)
Definition minReplicas (source : LogSource) : option Z :=
  match instances source with
  | Some i => inst_min i
  | None => None
  end.





(** Counting events of one kind in a run. *)
Definition count (kind : Event -> bool) (events : list Event) : nat :=
  length (List.filter kind events).

(** A recovery attempt starts: the line logged on entering the [try]. *)
Definition is_attempt (ev : Event) : bool :=
  match ev with
  | Log _ INFO (MsgRecoveryAttempt _ _ _) => true
  | _ => false
  end.

(** A restart action: the patch that sets [restartedAt]. *)
Definition is_restart (ev : Event) : bool :=
  match ev with
  | Requested (patch_request _ _ (RestartPatch _)) _ => true
  | _ => false
  end.

(** A read of the deployment that the cluster refused. *)
Definition is_failed_read (ev : Event) : bool :=
  match ev with
  | Requested (read_request _ _) (Some _) => true
  | _ => false
  end.

(** What [_check_endpoint_health] can emit. *)
Definition is_probe_event (ev : Event) : bool :=
  match ev with
  | Requested (list_pod_request _ _) _ => true
  | Requested (http_get_request _ _) _ => true
  | Log _ ERROR (MsgHealthCheckFailed _ _) => true
  | _ => false
  end.

(** The cluster client signals its failures by [ApiException]. *)
Definition client_raises_ApiException : Prop :=
  (forall n ns w e,
     snd (read_namespaced_deployment n ns w) = Raise e -> is_ApiException e = true)
  /\ (forall n ns body w e,
        snd (patch_namespaced_deployment n ns body w) = Raise e ->
        is_ApiException e = true).

(** The deployment carries the [source] label the loops index it by. *)
Definition has_source (d : V1Deployment) : Prop := is_Some (labels d !! "source").

(** Seconds spent in [time.sleep] during a run. *)
Fixpoint total_sleep (events : list Event) : Z :=
  match events with
  | [] => 0
  | Sleep seconds :: rest => seconds + total_sleep rest
  | _ :: rest => total_sleep rest
  end.

(** A probe sent to a pod. *)
Definition is_http_get (ev : Event) : bool :=
  match ev with
  | Requested (http_get_request _ _) _ => true
  | _ => false
  end.

(** An update of a gauge. *)
Definition is_gauge (ev : Event) : bool :=
  match ev with
  | SetGauge _ _ _ => true
  | _ => false
  end.

(** The warning logged for a source found unhealthy. *)
Definition is_unhealthy_warning (ev : Event) : bool :=
  match ev with
  | Log _ WARNING (MsgUnhealthyDetected _) => true
  | _ => false
  end.

(** The line logged when an attempt is cut short by an [ApiException]. *)
Definition is_refused_attempt (ev : Event) : bool :=
  match ev with
  | Log _ ERROR (MsgRecoveryAttemptFailed _ _) => true
  | _ => false
  end.

(** A change of what is deployed: a call of one of the three actions, or
    a request that creates, deletes or rewrites a deployment. *)
Definition is_mutation (ev : Event) : bool :=
  match ev with
  | Invoke _ => true
  | Requested (create_request _ _) _ => true
  | Requested (delete_request _ _) _ => true
  | Requested (patch_request _ _ (ReplicasPatch _)) _ => true
  | _ => false
  end.

(** What [monitor_lfr_health] can emit. *)
Definition is_monitor_event (ev : Event) : bool :=
  match ev with
  | Requested (list_deployment_request _ _) _ => true
  | SetGauge _ _ _ => true
  | Log _ ERROR (MsgDeploymentHealthFailed _) => true
  | other => is_probe_event other
  end.

(** What [_handle_unhealthy_deployment] can emit. *)
Definition is_recovery_event (ev : Event) : bool :=
  match ev with
  | Log _ INFO (MsgRecoveryAttempt _ _ _) => true
  | Log _ INFO (MsgRecoverySuccessful _) => true
  | Log _ ERROR (MsgRecoveryAttemptFailed _ _) => true
  | Log _ ERROR (MsgRecoveryExhausted _ _) => true
  | Requested (read_request _ _) _ => true
  | Requested (patch_request _ _ (RestartPatch _)) _ => true
  | Sleep seconds => (seconds =? 10)%Z || (seconds =? 5)%Z
  | other => is_probe_event other
  end.

(** The sources a health dict reports unhealthy. *)
Definition unhealthy (health_status : list (string * bool)) : list string :=
  List.map fst (List.filter (fun item => negb (snd item)) health_status).

(** A request that writes to the cluster. *)
Definition is_write (ev : Event) : bool :=
  match ev with
  | Requested (create_request _ _) _ => true
  | Requested (delete_request _ _) _ => true
  | Requested (patch_request _ _ _) _ => true
  | _ => false
  end.

Definition is_log (ev : Event) : bool :=
  match ev with
  | Log _ _ _ => true
  | _ => false
  end.

Definition is_error_log (ev : Event) : bool :=
  match ev with
  | Log _ ERROR _ => true
  | _ => false
  end.

End Controller.

Arguments M World A : clear implicits.

(** ** A simulated cluster

    A small concrete world on which the controller runs: a list of
    deployments, pods found by label selector, an HTTP responder that may
    depend on how often the deployment was restarted, and refusals of the
    cluster API injected per operation, by HTTP status. *)
Module Sim.

Record World : Type := {
  now : Z;
  document : Result Document;
  deployments : list V1Deployment;
  pods : string -> list V1Pod;
  responder : Z -> string -> Result Z;
  restarts : Z;
  fault : string -> option Z;
  needs_scaling : string -> bool
}.

Definition with_deployments (w : World) (ds : list V1Deployment) : World :=
  {| now := now w; document := document w; deployments := ds; pods := pods w;
     responder := responder w; restarts := restarts w; fault := fault w;
     needs_scaling := needs_scaling w |}.

Definition with_restarts (w : World) (n : Z) : World :=
  {| now := now w; document := document w; deployments := deployments w;
     pods := pods w; responder := responder w; restarts := n; fault := fault w;
     needs_scaling := needs_scaling w |}.

Definition with_now (w : World) (t : Z) : World :=
  {| now := t; document := document w; deployments := deployments w;
     pods := pods w; responder := responder w; restarts := restarts w;
     fault := fault w; needs_scaling := needs_scaling w |}.

(** The cluster answers unless the operation is set to be refused. *)
Definition guarded {A} (w : World) (operation : string) (answer : World * Result A)
  : World * Result A :=
  match fault w operation with
  | Some status => (w, Raise (ApiException status))
  | None => answer
  end.

Definition lfr_labels (source_name : string) : gmap string string :=
  <["source" := source_name]> {["app" := "lfr"]}.

Definition named (n : string) (d : V1Deployment) : bool :=
  String.eqb (metadata_name d) n.

Definition find_deployment (w : World) (n : string) : Result V1Deployment :=
  match List.find (named n) (deployments w) with
  | Some d => Ok d
  | None => Raise (ApiException 404)
  end.

Definition present (w : World) (n : string) (answer : World * Result unit)
  : World * Result unit :=
  match find_deployment w n with
  | Ok _ => answer
  | Raise e => (w, Raise e)
  end.

#[export] Instance client : ClusterStateClient World := {
  load_kube_config w :=
    match fault w "load_kube_config" with
    | Some _ => (w, Raise ConfigException)
    | None => (w, Ok tt)
    end;
  create_namespaced_deployment body ns w :=
    guarded w ("create:" +:+ manifest_name body)
      (with_deployments w
         (deployments w ++
          [{| metadata_name := manifest_name body;
              labels := lfr_labels (manifest_source body);
              spec_replicas := Some (manifest_replicas body);
              available_replicas := None |}]),
       Ok tt);
  read_namespaced_deployment n ns w :=
    guarded w ("read:" +:+ n) (w, find_deployment w n);
  patch_namespaced_deployment n ns body w :=
    guarded w ("patch:" +:+ n)
      (present w n
         (match body with
          | ReplicasPatch d =>
              with_deployments w
                (List.map (fun d' => if named n d' then d else d') (deployments w))
          | RestartPatch _ => with_restarts w (restarts w + 1)
          end, Ok tt));
  delete_namespaced_deployment n ns w :=
    guarded w ("delete:" +:+ n)
      (present w n
         (with_deployments w
            (List.filter (fun d => negb (named n d)) (deployments w)), Ok tt));
  list_namespaced_deployment ns selector w :=
    guarded w "list_deployment" (w, Ok (deployments w));
  list_namespaced_pod ns selector w :=
    guarded w ("list_pod:" +:+ selector) (w, Ok (pods w selector))
}.

#[export] Instance prober : EndpointProber World := {
  requests_get url timeout w := (w, responder w (restarts w) url)
}.

#[export] Instance host : Host World := {
  sleep seconds w := with_now w (now w + seconds);
  strftime w := "2024-01-01T00:00:00Z";
  safe_load path w := (w, document w);
  start_http_server port w := (w, Ok tt)
}.

(** A scaling policy read off the world. *)
#[export] Instance policy : ScalingPolicy World := {
  check_scaling_needs source_name w := (w, Ok (needs_scaling w source_name));
  get_current_replicas source_name w :=
    (w, match find_deployment w (lfr source_name) with
        | Ok d => Ok (default 0 (spec_replicas d))
        | Raise e => Raise e
        end)
}.


Definition source (n : string) (on : bool) (minimum : option Z) : LogSource :=
  {| name := n; enabled := on;
     instances := match minimum with
                  | Some m => Some {| inst_min := Some m; inst_max := None |}
                  | None => None
                  end |}.

Definition configuration (log_sources : list LogSource) : Config :=
  <["log_sources" := Sources log_sources]>
    {["kubernetes" := Mapping {["namespace" := "logging"]}]}.

Definition deployment (source_name : string) (desired : Z) (available : option Z)
  : V1Deployment :=
  {| metadata_name := lfr source_name; labels := lfr_labels source_name;
     spec_replicas := Some desired; available_replicas := available |}.

Definition pod (ip : string) : V1Pod := {| pod_ip := Some ip |}.

(** A cluster where nothing is refused and every pod answers 200. *)
Definition quiet (log_sources : list LogSource) (ds : list V1Deployment)
    (members : string -> list V1Pod) : World :=
  {| now := 0; document := Ok (Dict (configuration log_sources)); deployments := ds;
     pods := members; responder := fun _ _ => Ok 200; restarts := 0;
     fault := fun _ => None; needs_scaling := fun _ => false |}.

Definition with_fault (w : World) (f : string -> option Z) : World :=
  {| now := now w; document := document w; deployments := deployments w;
     pods := pods w; responder := responder w; restarts := restarts w;
     fault := f; needs_scaling := needs_scaling w |}.

Definition with_responder (w : World) (r : Z -> string -> Result Z) : World :=
  {| now := now w; document := document w; deployments := deployments w;
     pods := pods w; responder := r; restarts := restarts w;
     fault := fault w; needs_scaling := needs_scaling w |}.

Definition with_document (w : World) (d : Result Document) : World :=
  {| now := now w; document := d; deployments := deployments w;
     pods := pods w; responder := responder w; restarts := restarts w;
     fault := fault w; needs_scaling := needs_scaling w |}.

Definition with_needs_scaling (w : World) (f : string -> bool) : World :=
  {| now := now w; document := document w; deployments := deployments w;
     pods := pods w; responder := responder w; restarts := restarts w;
     fault := fault w; needs_scaling := f |}.

Definition path : string := "/etc/lmm/config/lmm-config.yaml".

Definition controller (log_sources : list LogSource) : LMMController :=
  {| config_path := path;
     config := Dict (configuration log_sources);
     namespace := "logging" |}.

Definition nobody : string -> list V1Pod := fun _ => [].

Definition three_pods : string -> list V1Pod :=
  fun _ => [pod "10.0.0.1"; pod "10.0.0.2"; pod "10.0.0.3"].

(** Scenario A and B of the specification. *)
Definition app1_wanted : list LogSource := [source "app1" true (Some 2)].
Definition app1_unwanted : list LogSource := [source "app1" false None].





(** Scenario C and D: three pods answering 200, all replicas available or
    one missing. *)
Definition ready : World := quiet [] [deployment "app1" 3 (Some 3)] three_pods.
Definition degraded : World := quiet [] [deployment "app1" 3 (Some 2)] three_pods.

(** A deployment that has not reported its status yet. *)
Definition unreported : World := quiet [] [deployment "app1" 3 None] three_pods.

(** Scenario E and F: the pods answer 503, for ever or until the second
    restart. *)
Definition sick : World := with_responder ready (fun _ _ => Ok 503).
Definition heals : World :=
  with_responder ready (fun n _ => if (n <? 2)%Z then Ok 503 else Ok 200).

(** The cluster refuses to list the deployments. *)
Definition unlistable : World :=
  with_fault ready
    (fun operation =>
       if String.eqb operation "list_deployment" then Some 503 else None).


Definition app1_observed : gmap string V1Deployment :=
  {["app1" := deployment "app1" 3 (Some 3)]}.

(** A document whose [kubernetes] mapping has no [namespace], and one that
    has [namespace] at the top level instead. *)
Definition no_namespace : Config :=
  <["log_sources" := Sources []]> {["kubernetes" := Mapping ∅]}.

Definition top_level_namespace : Config :=
  <["log_sources" := Sources []]> {["namespace" := Scalar "logging"]}.

Definition serves (d : Config) : World :=
  with_document (quiet [] [] nobody) (Ok (Dict d)).

(** An empty configuration file, and one that holds a single line of text
    in which both field names occur. *)
Definition empty_file : World := with_document (quiet [] [] nobody) (Ok NoneDocument).

Definition one_line : Document := Str "kubernetes and log_sources".

Definition line_of_text : World := with_document (quiet [] [] nobody) (Ok one_line).

(** The configuration file is not valid YAML; the kube configuration
    cannot be loaded. *)
Definition unclosed : exn := YAMLError "while parsing a flow mapping".

Definition garbled : World := with_document (quiet [] [] nobody) (Raise unclosed).

Definition no_kube_config : World :=
  with_fault (quiet [] [] nobody)
    (fun operation =>
       if String.eqb operation "load_kube_config" then Some 0 else None).

(** A deployment listed without the [source] label. *)
Definition unlabelled : V1Deployment :=
  {| metadata_name := "lfr-stray"; labels := {["app" := "lfr"]};
     spec_replicas := Some 1; available_replicas := Some 1 |}.

Definition with_stray : World :=
  quiet [] [deployment "app1" 3 (Some 3); unlabelled] three_pods.

(** Two deployments that carry the same [source] label. *)
Definition twice : World :=
  quiet [] [deployment "app1" 3 (Some 3); deployment "app1" 2 (Some 1)] three_pods.

(** An enabled source without [instances], followed by a complete one. *)
Definition no_minimum : list LogSource :=
  [source "app1" true None; source "app2" true (Some 1)].

(** The first pod answers 500. *)
Definition first_pod_down : World :=
  with_responder ready
    (fun _ url =>
       if String.eqb url "http://10.0.0.1:8080/health" then Ok 500 else Ok 200).

End Sim.

(** * The stand-alone scripts

    [src/lfr_health_monitor.py] and [src/logging_metrics.py] do not talk to
    the cluster: they have their own events.  The computations are of the
    same kind as the controller's, over any type of events. *)
Module Tracing.

Record Run (World E A : Type) : Type := {
  after : World;
  trace : list E;
  outcome : Result A
}.
Arguments after {World E A} r.
Arguments trace {World E A} r.
Arguments outcome {World E A} r.

Section Computations.

Context {World E : Type}.

Definition T (A : Type) : Type := World -> Run World E A.

Definition ret {A} (a : A) : T A :=
  fun w => {| after := w; trace := []; outcome := Ok a |}.

Definition raise {A} (e : exn) : T A :=
  fun w => {| after := w; trace := []; outcome := Raise e |}.

(** The events of what ran before, put in front of a run. *)
Definition preceded {A} (events : list E) (r : Run World E A) : Run World E A :=
  {| after := after r; trace := events ++ trace r; outcome := outcome r |}.

Definition bind {A B} (m : T A) (k : A -> T B) : T B :=
  fun w =>
    match outcome (m w) with
    | Ok a => preceded (trace (m w)) (k a (after (m w)))
    | Raise e => {| after := after (m w); trace := trace (m w); outcome := Raise e |}
    end.

(** [try: body except <classes> as e: handler e]. *)
Definition try_except {A} (body : T A) (classes : exn -> bool) (handler : exn -> T A)
  : T A :=
  fun w =>
    match outcome (body w) with
    | Ok _ => body w
    | Raise e =>
        if classes e
        then preceded (trace (body w)) (handler e (after (body w)))
        else body w
    end.

Definition emit (ev : E) : T unit :=
  fun w => {| after := w; trace := [ev]; outcome := Ok tt |}.

(** A call answered by the world, recorded with its failure if any. *)
Definition ask {A} (record : option exn -> E) (op : World -> World * Result A) : T A :=
  fun w =>
    {| after := fst (op w);
       trace := [record (match snd (op w) with Ok _ => None | Raise e => Some e end)];
       outcome := snd (op w) |}.

Fixpoint for_each {A} (l : list A) (body : A -> T unit) : T unit :=
  match l with
  | [] => ret tt
  | x :: rest => bind (body x) (fun _ => for_each rest body)
  end.

End Computations.

Arguments T World E A : clear implicits.

End Tracing.

(** ** [src/lfr_health_monitor.py] *)
Module HealthMonitor.

Import Tracing.

(** An entry of [lfr_instances]: a dict with the keys [name] and [url]. *)
Record LfrInstance : Type := { lfr_name : string; lfr_url : string }.

Definition lfr_instances : list LfrInstance :=
  [{| lfr_name := "LFR-1"; lfr_url := "http://lfr1.example.com/health" |};
   {| lfr_name := "LFR-2"; lfr_url := "http://lfr2.example.com/health" |}].

(** The f-strings handed to [logging_metrics.log]. *)
Inductive Line : Type :=
| LineHealthy (instance_name : string)
| LineUnhealthy (instance_name : string) (status_code : Z)
| LineCheckError (instance_name : string) (e : exn)
| LineRestartAttempt (instance_name : string) (attempt : Z)
| LineRestarted (instance_name : string)
| LineRestartGivenUp (instance_name : string) (max_retries : Z)
| LineDockerAttempt (instance_name : string)
| LineDockerDone (instance_name : string)
| LineDockerFailed (instance_name : string) (e : exn).

Inductive Event : Type :=
| Got (url : string) (failure : option exn)
| Ran (command : list string) (failure : option exn)
| Logged (component : string) (level : Level) (line : Line)
| Slept (seconds : Z).

(** The machine the script runs on: [requests.get], [subprocess.run] with
    [check=True], [time.sleep]. *)
Class Machine (World : Type) : Type := {
  get : string -> World -> World * Result Z;
  run : list string -> World -> World * Result unit;
  pause : Z -> World -> World
}.

(** [subprocess.CalledProcessError] *)
Definition CalledProcessError : exn := OtherException "CalledProcessError".

Definition is_CalledProcessError (e : exn) : bool :=
  match e with
  | OtherException what => String.eqb what "CalledProcessError"
  | _ => false
  end.

Section Script.

Context {World : Type} `{!Machine World}.

Notation "'let!' x ':=' m 'in' k" := (bind m (fun x => k))
  (at level 10, x name, m at level 100, k at level 200).
Notation "m >> k" := (bind m (fun _ => k))
  (at level 100, k at level 200, right associativity).

Definition log (component : string) (level : Level) (line : Line)
  : T World Event unit :=
  emit (Logged component level line).

Definition time_sleep (seconds : Z) : T World Event unit :=
  fun w => {| after := pause seconds w; trace := [Slept seconds]; outcome := Ok tt |}.

(** [check_health] *)
Definition check_health (lfr_instance : LfrInstance) : T World Event bool :=
  try_except
    (let! status_code := ask (Got (lfr_url lfr_instance)) (get (lfr_url lfr_instance)) in
     if (status_code =? 200)%Z then
       log "LFRHealthCheck" INFO (LineHealthy (lfr_name lfr_instance)) >>
       ret true
     else
       log "LFRHealthCheck" WARNING
         (LineUnhealthy (lfr_name lfr_instance) status_code) >>
       ret false)
    is_Exception
    (fun e =>
       log "LFRHealthCheck" ERROR (LineCheckError (lfr_name lfr_instance) e) >>
       ret false).

Definition docker_restart (instance_name : string) : list string :=
  ["docker"; "restart"; instance_name].

(** [restart_instance] *)
Definition restart_instance (instance_name : string) : T World Event bool :=
  try_except
    (log "LFRRestart" INFO (LineDockerAttempt instance_name) >>
     ask (Ran (docker_restart instance_name)) (run (docker_restart instance_name)) >>
     log "LFRRestart" INFO (LineDockerDone instance_name) >>
     ret true)
    is_CalledProcessError
    (fun e =>
       log "LFRRestart" ERROR (LineDockerFailed instance_name e) >>
       ret false).

(** [range(n)] *)
Definition range (n : Z) : list Z := seqZ 0 n.

(** The [for attempt in range(max_retries)] loop of [retry_restart] with
    its [else] clause, which runs when the loop ends without [break]. *)
Fixpoint restart_attempts (lfr_instance : LfrInstance) (max_retries : Z)
    (attempts : list Z) : T World Event unit :=
  match attempts with
  | [] =>
      log "LFRRetry" ERROR (LineRestartGivenUp (lfr_name lfr_instance) max_retries)
  | attempt :: rest =>
      log "LFRRetry" INFO (LineRestartAttempt (lfr_name lfr_instance) (attempt + 1)) >>
      let! success := restart_instance (lfr_name lfr_instance) in
      if (success : bool) then
        log "LFRRetry" INFO (LineRestarted (lfr_name lfr_instance))
      else
        time_sleep 5 >>
        restart_attempts lfr_instance max_retries rest
  end.

(** [retry_restart] *)
Definition retry_restart (unhealthy_instances : list LfrInstance) (max_retries : Z)
  : T World Event unit :=
  for_each unhealthy_instances (fun lfr_instance =>
    restart_attempts lfr_instance max_retries (range max_retries)).

(** The [for lfr in lfr_instances] loop of [monitor_lfr_instances]; its
    value is the list [unhealthy_instances] after the loop. *)
Fixpoint check_instances (instances unhealthy_instances : list LfrInstance)
  : T World Event (list LfrInstance) :=
  match instances with
  | [] => ret unhealthy_instances
  | lfr :: rest =>
      let! healthy := check_health lfr in
      if (healthy : bool) then check_instances rest unhealthy_instances
      else check_instances rest (unhealthy_instances ++ [lfr])
  end.

(** One pass of the [while True] of [monitor_lfr_instances] over the given
    instances; its value is the list [unhealthy_instances] the next pass
    starts with. *)
Definition monitor_pass (instances unhealthy_instances : list LfrInstance)
  : T World Event (list LfrInstance) :=
  let! unhealthy_instances := check_instances instances unhealthy_instances in
  let! unhealthy_instances :=
    match unhealthy_instances with
    | [] => ret unhealthy_instances
    | _ :: _ => retry_restart unhealthy_instances 3 >> ret []
    end in
  time_sleep 60 >>
  ret unhealthy_instances.

Fixpoint monitor_passes (n : nat) (instances unhealthy_instances : list LfrInstance)
  : T World Event (list LfrInstance) :=
  match n with
  | O => ret unhealthy_instances
  | S n' =>
      let! unhealthy_instances := monitor_pass instances unhealthy_instances in
      monitor_passes n' instances unhealthy_instances
  end.

(** [monitor_lfr_instances] never returns; its first [n] passes. *)
Definition monitor_lfr_instances (n : nat) : T World Event (list LfrInstance) :=
  monitor_passes n lfr_instances [].

(** Counting events of one kind in a trace. *)
Definition tally (kind : Event -> bool) (events : list Event) : nat :=
  length (List.filter kind events).

Definition is_got (ev : Event) : bool :=
  match ev with Got _ _ => true | _ => false end.

Definition is_ran (ev : Event) : bool :=
  match ev with Ran _ _ => true | _ => false end.

Definition is_given_up (ev : Event) : bool :=
  match ev with Logged _ ERROR (LineRestartGivenUp _ _) => true | _ => false end.

Definition is_ran_well (ev : Event) : bool :=
  match ev with Ran _ None => true | _ => false end.

Definition is_slept (ev : Event) : bool :=
  match ev with Slept _ => true | _ => false end.

(** The line [check_health] logs for an instance it finds unhealthy. *)
Definition is_found_unhealthy (ev : Event) : bool :=
  match ev with
  | Logged _ WARNING (LineUnhealthy _ _) => true
  | Logged _ ERROR (LineCheckError _ _) => true
  | _ => false
  end.

(** [subprocess.run] fails only by [CalledProcessError]. *)
Definition run_raises_CalledProcessError : Prop :=
  forall command w e, snd (run command w) = Raise e -> is_CalledProcessError e = true.

End Script.

(** A machine to run the script on: each URL answers what [answers] says,
    and [docker restart] succeeds from the [heals_at]-th run on. *)
Record Box : Type := {
  answers : string -> Result Z;
  heals_at : Z;
  runs : Z;
  clock : Z
}.

#[export] Instance box : Machine Box := {
  get url w := (w, answers w url);
  run command w :=
    ({| answers := answers w; heals_at := heals_at w; runs := runs w + 1;
        clock := clock w |},
     if (heals_at w <=? runs w + 1)%Z then Ok tt else Raise CalledProcessError);
  pause seconds w :=
    {| answers := answers w; heals_at := heals_at w; runs := runs w;
       clock := clock w + seconds |}
}.

(** A machine without docker: every [subprocess.run] raises
    [FileNotFoundError]. *)
Definition no_docker : Machine Box := {|
  get url w := (w, answers w url);
  run command w := (w, Raise (FileNotFoundError "docker"));
  pause seconds w := w
|}.

(** LFR-1 answers 200, LFR-2 answers 503; docker works at the second run. *)
Definition one_down : Box :=
  {| answers := fun url =>
       if String.eqb url "http://lfr1.example.com/health" then Ok 200 else Ok 503;
     heals_at := 2; runs := 0; clock := 0 |}.

(** Every instance answers 200. *)
Definition all_up : Box :=
  {| answers := fun _ => Ok 200; heals_at := 1; runs := 0; clock := 0 |}.

End HealthMonitor.

(** ** [src/logging_metrics.py] *)
Module LoggingMetrics.

Import Tracing.

(** The classes of [prometheus_client] the module registers. *)
Inductive Kind : Type := Counter | Gauge | Histogram.

(** [METRICS] *)
Definition METRICS : list (string * Kind) :=
  [("requests_total", Counter);
   ("errors_total", Counter);
   ("processing_time", Histogram);
   ("active_connections", Gauge)].

(** The methods of [logger]. *)
Inductive Method : Type := info | warning | error | debug.

(** What is handed to [logger]: the log message, with the extra context
    when there is some, or one of the fixed lines. *)
Inductive Text : Type :=
| Message (log_message : string) (extra : option (list (string * string)))
| ServerStarted (metrics_port : Z)
| MetricNotFound (metric_name : string)
| NotAGauge (metric_name : string)
| NotAHistogram (metric_name : string).

(** [V] stands for Python's [float]. *)
Inductive Event (V : Type) : Type :=
| Logger (method : Method) (text : Text)
| Inc (metric_name component : string) (value : V) (failure : option exn)
| SetTo (metric_name component : string) (value : V) (failure : option exn)
| Observe (metric_name component : string) (value : V) (failure : option exn)
| StartServer (metrics_port : Z) (failure : option exn).
Arguments Logger {V} method text.
Arguments Inc {V} metric_name component value failure.
Arguments SetTo {V} metric_name component value failure.
Arguments Observe {V} metric_name component value failure.
Arguments StartServer {V} metrics_port failure.

(** The registry of [prometheus_client]: [.labels(component=c).inc(v)],
    [.set(v)], [.observe(v)], and [start_http_server]. *)
Class Registry (World V : Type) : Type := {
  labels_inc : string -> string -> V -> World -> World * Result unit;
  labels_set : string -> string -> V -> World -> World * Result unit;
  labels_observe : string -> string -> V -> World -> World * Result unit;
  start_http_server : Z -> World -> World * Result unit;
  one : V
}.

Section Module_.

Context {World V : Type} `{!Registry World V}.

(** [str.upper], a builtin. *)
Variable upper : string -> string.

Notation "m >> k" := (bind m (fun _ => k))
  (at level 100, k at level 200, right associativity).

Definition logger (method : Method) (text : Text) : T World (Event V) unit :=
  emit (Logger method text).

(** [_start_metrics_server], called by [__init__]. *)
Definition _start_metrics_server (metrics_port : Z) : T World (Event V) unit :=
  ask (StartServer metrics_port) (start_http_server metrics_port) >>
  logger info (ServerStarted metrics_port).

(** [increment_metric] *)
Definition increment_metric (metric_name component : string) (value : V)
  : T World (Event V) unit :=
  match dict_get METRICS metric_name with
  | Some _ =>
      ask (Inc metric_name component value) (labels_inc metric_name component value)
  | None => logger warning (MetricNotFound metric_name)
  end.

(** [set_metric] *)
Definition set_metric (metric_name component : string) (value : V)
  : T World (Event V) unit :=
  match dict_get METRICS metric_name with
  | Some Gauge =>
      ask (SetTo metric_name component value) (labels_set metric_name component value)
  | _ => logger warning (NotAGauge metric_name)
  end.

(** [observe_metric] *)
Definition observe_metric (metric_name component : string) (value : V)
  : T World (Event V) unit :=
  match dict_get METRICS metric_name with
  | Some Histogram =>
      ask (Observe metric_name component value)
          (labels_observe metric_name component value)
  | _ => logger warning (NotAHistogram metric_name)
  end.

(** Truth value of [extra]: [None] and the empty dict are false. *)
Definition given (extra : option (list (string * string)))
  : option (list (string * string)) :=
  match extra with
  | Some [] => None
  | other => other
  end.

(** [log] *)
Definition log (component level message : string)
    (extra : option (list (string * string))) : T World (Event V) unit :=
  let log_message := Message ("[" +:+ component +:+ "] " +:+ message) (given extra) in
  if decide (upper level = "INFO") then logger info log_message
  else if decide (upper level = "WARNING") then logger warning log_message
  else if decide (upper level = "ERROR") then
    logger error log_message >>
    increment_metric "errors_total" component one
  else logger debug log_message.

(** A call of the registry. *)
Definition is_metric_call (ev : Event V) : bool :=
  match ev with
  | Inc _ _ _ _ | SetTo _ _ _ _ | Observe _ _ _ _ => true
  | _ => false
  end.

End Module_.

(** A registry that records nothing and never fails, with integers for
    values and upper case for ASCII letters. *)
#[export] Instance silent : Registry unit Z := {
  labels_inc _ _ _ w := (w, Ok tt);
  labels_set _ _ _ w := (w, Ok tt);
  labels_observe _ _ _ w := (w, Ok tt);
  start_http_server _ w := (w, Ok tt);
  one := 1%Z
}.

Fixpoint ascii_upper (s : string) : string :=
  match s with
  | EmptyString => EmptyString
  | String c rest =>
      let n := Ascii.nat_of_ascii c in
      String
        (if ((97 <=? n)%nat && (n <=? 122)%nat)%bool
         then Ascii.ascii_of_nat (n - 32) else c)
        (ascii_upper rest)
  end.

End LoggingMetrics.

(** * Properties *)

Section Properties.

Context {World : Type}.
Context `{!ClusterStateClient World, !EndpointProber World,
          !Host World, !ScalingPolicy World}.

Implicit Types (w : World) (self : LMMController) (e : exn).

(** ** Running computations step by step *)

Lemma bind_eq {A B} (m : M World A) (k : A -> M World B) w :
  bind m k w
  = match result (m w) with
    | Ok a => prepend (emitted (m w)) (k a (final (m w)))
    | Raise e => {| final := final (m w); emitted := emitted (m w); result := Raise e |}
    end.
Proof. reflexivity. Qed.

Lemma try_except_run {A} (body : M World A) classes handler w o :
  body w = o ->
  try_except body classes handler w
  = match result o with
    | Ok _ => o
    | Raise e => if classes e then prepend (emitted o) (handler e (final o)) else o
    end.
Proof. intros <-. reflexivity. Qed.

Lemma prepend_prepend {A} (l1 l2 : list Event) (o : Outcome World A) :
  prepend l1 (prepend l2 o) = prepend (l1 ++ l2) o.
Proof. unfold prepend. simpl. now rewrite app_assoc. Qed.

(** One step of a run: the outermost [bind] is opened and the primitive
    computation in front of it evaluated. *)
Ltac run_step :=
  rewrite bind_eq;
  cbn [result final emitted log emit ret raise lift request request_free
       time_sleep time_strftime reify fst snd failure_of].

(** The end of a run: the outcome written out as a record. *)
Ltac run_done :=
  unfold prepend, ret, raise; cbn [final emitted result app]; reflexivity.

(** ** Endpoint health *)

Lemma probe_pods_all_probes (pods : list V1Pod) w :
  match result (probe_pods pods w) with
  | Ok b => b = all_probes_healthy (omap assigned_ip pods) w
  | Raise _ => all_probes_healthy (omap assigned_ip pods) w = false
  end.
Proof.
  revert w. induction pods as [|pod rest IH]; intros w; simpl.
  - reflexivity.
  - destruct (assigned_ip pod) as [ip|] eqn:Hip; simpl; [|apply IH].
    unfold bind, request; simpl.
    destruct (requests_get (health_url ip) 5 w) as [w' [status_code|e]]; simpl.
    + destruct (status_code =? 200)%Z; simpl; [|reflexivity].
      specialize (IH w'). destruct (result (probe_pods rest w')); exact IH.
    + reflexivity.
Qed.

Lemma check_endpoint_health_result self (source_name : string) w :
  result (_check_endpoint_health self source_name w)
  = Ok (endpointHealthy self source_name w).
Proof.
  unfold _check_endpoint_health, endpointHealthy, try_except, bind, request.
  simpl.
  destruct (list_namespaced_pod (namespace self) (source_selector source_name) w)
    as [w' [pods|e]]; simpl; [|reflexivity].
  pose proof (probe_pods_all_probes pods w') as Hp.
  destruct (result (probe_pods pods w')) as [b|e]; simpl.
  - now subst.
  - now rewrite Hp.
Qed.

(** C4: [_check_endpoint_health] never raises; it returns the conjunction,
    over the listed pods that have an address, of "the probe answered
    200"; pods without an address are left out, so a source none of whose
    pods has an address is healthy, and a failure of the listing or of a
    probe gives [False]. *)
Theorem check_endpoint_health_fail_closed self (source_name : string) w :
  result (_check_endpoint_health self source_name w)
  = Ok (endpointHealthy self source_name w)
  /\ (forall w' pods,
        list_namespaced_pod (namespace self) (source_selector source_name) w
        = (w', Ok pods) ->
        Forall (fun pod => assigned_ip pod = None) pods ->
        endpointHealthy self source_name w = true)
  /\ (forall w' e,
        list_namespaced_pod (namespace self) (source_selector source_name) w
        = (w', Raise e) ->
        endpointHealthy self source_name w = false)
  /\ (forall w' pods pod ip w'' e,
        list_namespaced_pod (namespace self) (source_selector source_name) w
        = (w', Ok (pod :: pods)) ->
        assigned_ip pod = Some ip ->
        requests_get (health_url ip) 5 w' = (w'', Raise e) ->
        endpointHealthy self source_name w = false).
Proof.
  split; [apply check_endpoint_health_result|].
  unfold endpointHealthy. repeat split.
  - intros w' pods -> Hall.
    induction Hall as [|pod rest Hpod _ IH]; simpl; [reflexivity|].
    now rewrite Hpod.
  - now intros w' e ->.
  - intros w' pods pod ip w'' e -> Hip Hget. simpl.
    rewrite Hip. simpl. now rewrite Hget.
Qed.

(** ** Health evaluation *)

Lemma dict_get_set_eq {V} (d : list (string * V)) k v :
  dict_get (dict_set d k v) k = Some v.
Proof.
  induction d as [|[k' v'] rest IH]; simpl.
  - now rewrite String.eqb_refl.
  - destruct (String.eqb k' k) eqn:E; simpl; rewrite E; [reflexivity|exact IH].
Qed.

Lemma dict_get_set_ne {V} (d : list (string * V)) k k' v :
  k <> k' -> dict_get (dict_set d k v) k' = dict_get d k'.
Proof.
  intros Hne. induction d as [|[k0 v0] rest IH]; simpl.
  - destruct (String.eqb k k') eqn:E; [|reflexivity].
    apply String.eqb_eq in E. contradiction.
  - destruct (String.eqb k0 k) eqn:E; simpl.
    + apply String.eqb_eq in E. subst k0.
      destruct (String.eqb k k') eqn:E'; [|reflexivity].
      apply String.eqb_eq in E'. contradiction.
    + now rewrite IH.
Qed.

(** One turn of the loop of [monitor_lfr_health] on a labelled deployment. *)
Lemma monitor_loop_cons self d rest hs w (s : string) :
  labels d !! "source" = Some s ->
  let c := _check_endpoint_health self s w in
  let v := deployment_healthy d && endpointHealthy self s w in
  let o := monitor_loop self rest (dict_set hs s v) (final c) in
  monitor_loop self (d :: rest) hs w
  = {| final := final o;
       emitted := emitted c ++ SetGauge "lmm_lfr_health_status" (Some s) (bool_gauge v)
                              :: emitted o;
       result := result o |}.
Proof.
  intros Hs. simpl. rewrite Hs. unfold bind, reify, emit. simpl.
  rewrite check_endpoint_health_result. reflexivity.
Qed.

Lemma monitor_loop_keeps self items : forall hs w (s : string),
  Forall has_source items ->
  Forall (fun d => labels d !! "source" <> Some s) items ->
  exists hs', result (monitor_loop self items hs w) = Ok (hs', Ok tt)
              /\ dict_get hs' s = dict_get hs s.
Proof.
  induction items as [|d rest IH]; intros hs w s Hall Hno.
  - exists hs. split; reflexivity.
  - inversion Hall as [|? ? [s' Hs'] Hall']; subst.
    inversion Hno as [|? ? Hd Hno']; subst.
    rewrite (monitor_loop_cons _ _ _ _ _ _ Hs'). simpl.
    destruct (IH (dict_set hs s'
                    (deployment_healthy d && endpointHealthy self s' w))
                 (final (_check_endpoint_health self s' w)) s Hall' Hno')
      as (hs' & Hres & Hget).
    exists hs'. split; [exact Hres|].
    rewrite Hget. apply dict_get_set_ne. congruence.
Qed.

(** The verdict recorded for a source is the one computed for the last
    deployment that carries its label, in the world the loop has reached
    when it comes to that deployment. *)
Lemma monitor_loop_last self pre : forall d suf hs w (s : string),
  Forall has_source (pre ++ d :: suf) ->
  labels d !! "source" = Some s ->
  Forall (fun d' => labels d' !! "source" <> Some s) suf ->
  exists hs',
    result (monitor_loop self (pre ++ d :: suf) hs w) = Ok (hs', Ok tt)
    /\ dict_get hs' s
       = Some (deployment_healthy d
               && endpointHealthy self s (final (monitor_loop self pre hs w))).
Proof.
  induction pre as [|p pre IH]; intros d suf hs w s Hall Hs Hno.
  - simpl app. inversion Hall as [|? ? _ Hall']; subst.
    rewrite (monitor_loop_cons _ _ _ _ _ _ Hs). simpl.
    destruct (monitor_loop_keeps self suf
                (dict_set hs s (deployment_healthy d && endpointHealthy self s w))
                (final (_check_endpoint_health self s w)) s Hall' Hno)
      as (hs' & Hres & Hget).
    exists hs'. split; [exact Hres|].
    rewrite Hget. apply dict_get_set_eq.
  - simpl app. inversion Hall as [|? ? [s' Hs'] Hall']; subst.
    rewrite !(monitor_loop_cons _ _ _ _ _ _ Hs'). simpl.
    apply IH; assumption.
Qed.

Lemma monitor_lfr_health_listed self w w1 items :
  list_namespaced_deployment (namespace self) "app=lfr" w = (w1, Ok items) ->
  forall hs, result (monitor_loop self items [] w1) = Ok (hs, Ok tt) ->
  result (monitor_lfr_health self w) = Ok hs.
Proof.
  intros Hlist hs Hloop.
  unfold monitor_lfr_health, bind, reify, request. simpl.
  rewrite Hlist. simpl. rewrite Hloop. reflexivity.
Qed.

Lemma monitor_loop_leaves self items : forall hs w,
  exists hs',
    result (monitor_loop self items hs w) = Ok (hs', Ok tt)
    \/ result (monitor_loop self items hs w) = Ok (hs', Raise (KeyError "source")).
Proof.
  induction items as [|d rest IH]; intros hs w.
  - exists hs. now left.
  - destruct (labels d !! "source") as [s|] eqn:Hs.
    + rewrite (monitor_loop_cons _ _ _ _ _ _ Hs). simpl. apply IH.
    + exists hs. right. simpl. now rewrite Hs.
Qed.

(** C3: the verdict recorded for a source is [deployment_healthy] AND the
    endpoint check, where [deployment_healthy] holds exactly when the
    available and the desired replica counts are the same number; so the
    verdict is true only when both are true. *)
Theorem combined_verdict_is_conjunction self w w1 pre d suf (s : string) :
  list_namespaced_deployment (namespace self) "app=lfr" w = (w1, Ok (pre ++ d :: suf)) ->
  Forall has_source (pre ++ d :: suf) ->
  labels d !! "source" = Some s ->
  Forall (fun d' => labels d' !! "source" <> Some s) suf ->
  let workloadHealthy := deployment_healthy d in
  let endpoint := endpointHealthy self s (final (monitor_loop self pre [] w1)) in
  exists hs,
    result (monitor_lfr_health self w) = Ok hs
    /\ dict_get hs s = Some (workloadHealthy && endpoint)
    /\ (workloadHealthy = true <->
        exists n, available_replicas d = Some n /\ spec_replicas d = Some n)
    /\ (dict_get hs s = Some true <-> workloadHealthy = true /\ endpoint = true).
Proof.
  intros Hlist Hall Hs Hno workloadHealthy endpoint.
  destruct (monitor_loop_last self pre d suf [] w1 s Hall Hs Hno) as (hs & Hres & Hget).
  exists hs. split; [exact (monitor_lfr_health_listed _ _ _ _ Hlist _ Hres)|].
  split; [exact Hget|]. split.
  - unfold workloadHealthy, deployment_healthy.
    destruct (available_replicas d) as [a|], (spec_replicas d) as [r|]; split.
    + intros E. apply Z.eqb_eq in E. subst. eauto.
    + intros (n & Ha & Hr). injection Ha as ->. injection Hr as ->. apply Z.eqb_refl.
    + discriminate.
    + intros (n & _ & Hr). discriminate.
    + discriminate.
    + intros (n & Ha & _). discriminate.
    + discriminate.
    + intros (n & Ha & _). discriminate.
  - rewrite Hget. fold workloadHealthy endpoint. split.
    + intros E. injection E as E. now apply andb_true_iff in E.
    + intros [-> ->]. reflexivity.
Qed.

(** C9: a deployment that reports no available-replica count is recorded
    as unhealthy, whatever its endpoints answer; the evaluation does not
    raise. *)
Theorem missing_available_replicas_is_unhealthy self w w1 pre d suf (s : string) :
  list_namespaced_deployment (namespace self) "app=lfr" w = (w1, Ok (pre ++ d :: suf)) ->
  Forall has_source (pre ++ d :: suf) ->
  labels d !! "source" = Some s ->
  Forall (fun d' => labels d' !! "source" <> Some s) suf ->
  available_replicas d = None ->
  exists hs,
    result (monitor_lfr_health self w) = Ok hs /\ dict_get hs s = Some false.
Proof.
  intros Hlist Hall Hs Hno Hnone.
  destruct (monitor_loop_last self pre d suf [] w1 s Hall Hs Hno) as (hs & Hres & Hget).
  exists hs. split; [exact (monitor_lfr_health_listed _ _ _ _ Hlist _ Hres)|].
  rewrite Hget. unfold deployment_healthy. now rewrite Hnone.
Qed.

(** C10: [monitor_lfr_health] never raises an [ApiException]; when the
    listing of the deployments fails with one, the error is logged and the
    dict filled so far, which is empty, is returned. *)
Theorem monitor_lfr_health_swallows_api_errors self w :
  match result (monitor_lfr_health self w) with
  | Ok _ => True
  | Raise e => is_ApiException e = false
  end
  /\ (forall w1 status,
        list_namespaced_deployment (namespace self) "app=lfr" w
        = (w1, Raise (ApiException status)) ->
        monitor_lfr_health self w
        = {| final := w1;
             emitted :=
               [Requested (list_deployment_request (namespace self) "app=lfr")
                  (Some (ApiException status));
                Log "LMMController" ERROR
                  (MsgDeploymentHealthFailed (ApiException status))];
             result := Ok [] |}).
Proof.
  split.
  - unfold monitor_lfr_health, bind, reify, request. simpl.
    destruct (list_namespaced_deployment (namespace self) "app=lfr" w)
      as [w1 [items|e]]; simpl.
    + destruct (monitor_loop_leaves self items [] w1) as (hs & [Hres|Hres]);
        rewrite Hres; simpl; exact I || reflexivity.
    + destruct (is_ApiException e) eqn:He; simpl; [exact I|exact He].
  - intros w1 status Hlist.
    unfold monitor_lfr_health, bind, reify, request. simpl.
    rewrite Hlist. reflexivity.
Qed.

(** ** Reconciliation *)

Lemma for_each_cons {A} (x : A) rest (body : A -> M World unit) w :
  for_each (x :: rest) body w
  = match result (body x w) with
    | Ok _ =>
        let o := for_each rest body (final (body x w)) in
        {| final := final o; emitted := emitted (body x w) ++ emitted o;
           result := result o |}
    | Raise e =>
        {| final := final (body x w); emitted := emitted (body x w);
           result := Raise e |}
    end.
Proof. reflexivity. Qed.












(** ** Recovery *)

Lemma count_app kind (l1 l2 : list Event) :
  count kind (l1 ++ l2) = (count kind l1 + count kind l2)%nat.
Proof. unfold count. now rewrite List.filter_app, length_app. Qed.

Lemma count_none kind (l : list Event) :
  Forall (fun ev => kind ev = false) l -> count kind l = 0%nat.
Proof.
  unfold count. induction 1 as [|ev l Hev _ IH]; simpl; [reflexivity|].
  now rewrite Hev.
Qed.

Lemma probe_pods_events (pods : list V1Pod) : forall w,
  Forall (fun ev => is_probe_event ev = true) (emitted (probe_pods pods w)).
Proof.
  induction pods as [|pod rest IH]; intros w; simpl; [constructor|].
  destruct (assigned_ip pod) as [ip|]; [|apply IH].
  unfold bind, request. simpl.
  destruct (requests_get (health_url ip) 5 w) as [w' [status_code|e]]; simpl.
  - constructor; [reflexivity|].
    destruct (status_code =? 200)%Z; simpl; [apply IH|constructor].
  - constructor; [reflexivity|constructor].
Qed.

Lemma check_endpoint_health_events self (s : string) w :
  Forall (fun ev => is_probe_event ev = true)
         (emitted (_check_endpoint_health self s w)).
Proof.
  unfold _check_endpoint_health, try_except, bind, request, log, emit. simpl.
  destruct (list_namespaced_pod (namespace self) (source_selector s) w)
    as [w' [pods|e]]; simpl.
  - pose proof (probe_pods_events pods w') as Hp.
    destruct (result (probe_pods pods w')); simpl.
    + constructor; [reflexivity|exact Hp].
    + constructor; [reflexivity|].
      apply Forall_app. split; [exact Hp|]. constructor; [reflexivity|constructor].
  - constructor; [reflexivity|]. constructor; [reflexivity|constructor].
Qed.

Lemma check_endpoint_health_count self (s : string) w kind :
  (forall ev, is_probe_event ev = true -> kind ev = false) ->
  count kind (emitted (_check_endpoint_health self s w)) = 0%nat.
Proof.
  intros Hkind. apply count_none.
  eapply List.Forall_impl; [|apply check_endpoint_health_events].
  exact Hkind.
Qed.

Lemma probe_event_not_attempt ev : is_probe_event ev = true -> is_attempt ev = false.
Proof. destruct ev as [[] ?|? [] []| | |]; simpl; congruence. Qed.

Lemma probe_event_not_restart ev : is_probe_event ev = true -> is_restart ev = false.
Proof. destruct ev as [[] ?|? [] []| | |]; simpl; congruence. Qed.

Lemma probe_event_not_failed_read ev :
  is_probe_event ev = true -> is_failed_read ev = false.
Proof. destruct ev as [[] ?|? [] []| | |]; simpl; congruence. Qed.

Lemma retry_loop_step self (s : string) rc :
  retry_loop self s rc
  = if Z_lt_dec rc max_retries
    then bind (recovery_attempt self s (rc + 1))
           (fun returned : bool =>
              if returned then ret Healthy
              else bind (time_sleep 5) (fun _ => retry_loop self s (rc + 1)))
    else bind (log "LMMController" ERROR (MsgRecoveryExhausted s max_retries))
           (fun _ => ret Failed).
Proof.
  rewrite retry_loop_equation_1.
  destruct (Z_lt_dec rc max_retries); reflexivity.
Qed.

(** The attempt when the read of the deployment is refused. *)
Lemma recovery_attempt_read_refused self (s : string) k w w1 e :
  read_namespaced_deployment (lfr s) (namespace self) w = (w1, Raise e) ->
  recovery_attempt self s k w
  = if is_ApiException e
    then {| final := w1;
            emitted :=
              [Log "LMMController" INFO (MsgRecoveryAttempt k max_retries s);
               Requested (read_request (lfr s) (namespace self)) (Some e);
               Log "LMMController" ERROR (MsgRecoveryAttemptFailed k e)];
            result := Ok false |}
    else {| final := w1;
            emitted :=
              [Log "LMMController" INFO (MsgRecoveryAttempt k max_retries s);
               Requested (read_request (lfr s) (namespace self)) (Some e)];
            result := Raise e |}.
Proof.
  intros Hread. unfold recovery_attempt.
  erewrite try_except_run.
  2:{ run_step. run_step. rewrite Hread.
      cbn [fst snd result final emitted failure_of]. reflexivity. }
  cbn [result final emitted prepend].
  destruct (is_ApiException e); [|reflexivity].
  run_step. reflexivity.
Qed.

(** The attempt when the restart patch is refused. *)
Lemma recovery_attempt_patch_refused self (s : string) k w w1 d w2 e :
  read_namespaced_deployment (lfr s) (namespace self) w = (w1, Ok d) ->
  patch_namespaced_deployment (lfr s) (namespace self) (RestartPatch (strftime w1)) w1
  = (w2, Raise e) ->
  recovery_attempt self s k w
  = if is_ApiException e
    then {| final := w2;
            emitted :=
              [Log "LMMController" INFO (MsgRecoveryAttempt k max_retries s);
               Requested (read_request (lfr s) (namespace self)) None;
               Requested (patch_request (lfr s) (namespace self)
                            (RestartPatch (strftime w1))) (Some e);
               Log "LMMController" ERROR (MsgRecoveryAttemptFailed k e)];
            result := Ok false |}
    else {| final := w2;
            emitted :=
              [Log "LMMController" INFO (MsgRecoveryAttempt k max_retries s);
               Requested (read_request (lfr s) (namespace self)) None;
               Requested (patch_request (lfr s) (namespace self)
                            (RestartPatch (strftime w1))) (Some e)];
            result := Raise e |}.
Proof.
  intros Hread Hpatch. unfold recovery_attempt.
  erewrite try_except_run.
  2:{ run_step. run_step. rewrite Hread.
      cbn [fst snd result final emitted failure_of].
      run_step. run_step. rewrite Hpatch.
      cbn [fst snd result final emitted failure_of]. reflexivity. }
  cbn [result final emitted prepend].
  destruct (is_ApiException e); [|reflexivity].
  run_step. reflexivity.
Qed.

(** The attempt when the deployment was restarted: after the settle delay
    the endpoint check decides. *)
Lemma recovery_attempt_restarted self (s : string) k w w1 d w2 :
  read_namespaced_deployment (lfr s) (namespace self) w = (w1, Ok d) ->
  patch_namespaced_deployment (lfr s) (namespace self) (RestartPatch (strftime w1)) w1
  = (w2, Ok tt) ->
  let c := _check_endpoint_health self s (sleep 10 w2) in
  recovery_attempt self s k w
  = {| final := final c;
       emitted :=
         [Log "LMMController" INFO (MsgRecoveryAttempt k max_retries s);
          Requested (read_request (lfr s) (namespace self)) None;
          Requested (patch_request (lfr s) (namespace self)
                       (RestartPatch (strftime w1))) None;
          Sleep 10]
         ++ emitted c
         ++ (if endpointHealthy self s (sleep 10 w2)
             then [Log "LMMController" INFO (MsgRecoverySuccessful s)]
             else []);
       result := Ok (endpointHealthy self s (sleep 10 w2)) |}.
Proof.
  intros Hread Hpatch c. unfold recovery_attempt.
  destruct (endpointHealthy self s (sleep 10 w2)) eqn:Hhealthy.
  - erewrite try_except_run.
    2:{ run_step. run_step. rewrite Hread.
        cbn [fst snd result final emitted failure_of].
        run_step. run_step. rewrite Hpatch.
        cbn [fst snd result final emitted failure_of].
        run_step. rewrite bind_eq, check_endpoint_health_result, Hhealthy. fold c.
        run_step. run_done. }
    cbn [result]. rewrite ?app_nil_r. reflexivity.
  - erewrite try_except_run.
    2:{ run_step. run_step. rewrite Hread.
        cbn [fst snd result final emitted failure_of].
        run_step. run_step. rewrite Hpatch.
        cbn [fst snd result final emitted failure_of].
        run_step. rewrite bind_eq, check_endpoint_health_result, Hhealthy. fold c.
        run_done. }
    cbn [result]. rewrite ?app_nil_r. reflexivity.
Qed.

Lemma recovery_attempt_counts self (s : string) k w :
  let a := recovery_attempt self s k w in
  count is_attempt (emitted a) = 1%nat
  /\ (count is_restart (emitted a) + count is_failed_read (emitted a) = 1)%nat
  /\ match result a with Ok _ => True | Raise e => is_ApiException e = false end
  /\ (client_raises_ApiException -> exists b, result a = Ok b).
Proof.
  cbv zeta.
  destruct (read_namespaced_deployment (lfr s) (namespace self) w)
    as [w1 [d|e]] eqn:Hread.
  - destruct (patch_namespaced_deployment (lfr s) (namespace self)
                (RestartPatch (strftime w1)) w1) as [w2 [[]|e]] eqn:Hpatch.
    + rewrite (recovery_attempt_restarted _ _ _ _ _ _ _ Hread Hpatch).
      cbn [emitted result]. rewrite !count_app.
      rewrite !(check_endpoint_health_count self s (sleep 10 w2));
        auto using probe_event_not_attempt, probe_event_not_restart,
                   probe_event_not_failed_read.
      destruct (endpointHealthy self s (sleep 10 w2)); repeat split; eauto.
    + rewrite (recovery_attempt_patch_refused _ _ _ _ _ _ _ _ Hread Hpatch).
      destruct (is_ApiException e) eqn:He; repeat split; eauto.
      intros [_ Hclient]. specialize (Hclient (lfr s) (namespace self)
                                        (RestartPatch (strftime w1)) w1 e).
      rewrite Hpatch in Hclient. simpl in Hclient. specialize (Hclient eq_refl).
      congruence.
  - rewrite (recovery_attempt_read_refused _ _ _ _ _ _ Hread).
    destruct (is_ApiException e) eqn:He; repeat split; eauto.
    intros [Hclient _]. specialize (Hclient (lfr s) (namespace self) w e).
    rewrite Hread in Hclient. simpl in Hclient. specialize (Hclient eq_refl).
    congruence.
Qed.

Lemma retry_loop_exhausted self (s : string) rc w :
  ~ rc < max_retries ->
  retry_loop self s rc w
  = {| final := w;
       emitted := [Log "LMMController" ERROR (MsgRecoveryExhausted s max_retries)];
       result := Ok Failed |}.
Proof.
  intros Hrc. rewrite retry_loop_step.
  destruct (Z_lt_dec rc max_retries); [contradiction|reflexivity].
Qed.

(** One turn of the [while] of [_handle_unhealthy_deployment]. *)
Lemma retry_loop_turn self (s : string) rc w :
  rc < max_retries ->
  let a := recovery_attempt self s (rc + 1) w in
  retry_loop self s rc w
  = match result a with
    | Ok true => {| final := final a; emitted := emitted a; result := Ok Healthy |}
    | Ok false =>
        prepend (emitted a ++ [Sleep 5])
          (retry_loop self s (rc + 1) (sleep 5 (final a)))
    | Raise e => {| final := final a; emitted := emitted a; result := Raise e |}
    end.
Proof.
  intros Hrc a. rewrite retry_loop_step.
  destruct (Z_lt_dec rc max_retries); [|contradiction].
  rewrite bind_eq. fold a. destruct (result a) as [[|]|e]; [| |reflexivity].
  - unfold prepend, ret. cbn [final emitted result]. now rewrite app_nil_r.
  - run_step. now rewrite prepend_prepend.
Qed.

Lemma retry_loop_counts self (s : string) : forall (n : nat) rc w,
  Z.to_nat (max_retries - rc) = n ->
  let o := retry_loop self s rc w in
  (count is_attempt (emitted o) <= n)%nat
  /\ (count is_restart (emitted o) + count is_failed_read (emitted o)
      = count is_attempt (emitted o))%nat
  /\ (result o = Ok Failed -> count is_attempt (emitted o) = n)
  /\ match result o with Ok _ => True | Raise e => is_ApiException e = false end
  /\ (client_raises_ApiException -> result o = Ok Healthy \/ result o = Ok Failed).
Proof.
  induction n as [|n IH]; intros rc w Hn; cbv zeta.
  - rewrite retry_loop_exhausted by lia. cbn [emitted result].
    repeat split; auto.
  - assert (Hrc : rc < max_retries) by lia.
    rewrite (retry_loop_turn _ _ _ _ Hrc). cbv zeta.
    destruct (recovery_attempt_counts self s (rc + 1) w) as (Ha & Hr & He & Hc).
    destruct (result (recovery_attempt self s (rc + 1) w)) as [[|]|e] eqn:Hres.
    + cbn [emitted result]. rewrite Ha, Hr.
      repeat split; auto; try lia; discriminate.
    + assert (Hn' : Z.to_nat (max_retries - (rc + 1)) = n) by lia.
      destruct (IH (rc + 1) (sleep 5 (final (recovery_attempt self s (rc + 1) w))) Hn')
        as (Ia & Ir & If & Ie & Ic).
      unfold prepend. cbn [emitted result]. rewrite !count_app, Ha.
      change (count is_attempt [Sleep 5]) with 0%nat.
      change (count is_restart [Sleep 5]) with 0%nat.
      change (count is_failed_read [Sleep 5]) with 0%nat.
      repeat split; auto; try lia.
      all: intros Hf; specialize (If Hf); lia.
    + cbn [emitted result]. rewrite Ha, Hr.
      repeat split; auto; try lia; try discriminate.
      intros Hclient. destruct (Hc Hclient) as [b Hb]. discriminate.
Qed.



(** C6, as the code has it: after a restart and the settle delay of 10,
    the success check is [_check_endpoint_health] alone; the episode ends
    [Healthy] at this attempt exactly when the endpoint check is healthy,
    and goes on to the next turn of the loop, after a delay of 5, when it
    is not.  The replica counts of the deployment are not looked at. *)
Theorem recovery_success_is_the_endpoint_check self (s : string) rc w w1 d w2 :
  rc < max_retries ->
  read_namespaced_deployment (lfr s) (namespace self) w = (w1, Ok d) ->
  patch_namespaced_deployment (lfr s) (namespace self) (RestartPatch (strftime w1)) w1
  = (w2, Ok tt) ->
  let c := _check_endpoint_health self s (sleep 10 w2) in
  let attempt :=
    [Log "LMMController" INFO (MsgRecoveryAttempt (rc + 1) max_retries s);
     Requested (read_request (lfr s) (namespace self)) None;
     Requested (patch_request (lfr s) (namespace self) (RestartPatch (strftime w1)))
       None;
     Sleep 10] ++ emitted c in
  retry_loop self s rc w
  = if endpointHealthy self s (sleep 10 w2)
    then {| final := final c;
            emitted := attempt ++ [Log "LMMController" INFO (MsgRecoverySuccessful s)];
            result := Ok Healthy |}
    else prepend (attempt ++ [Sleep 5])
           (retry_loop self s (rc + 1) (sleep 5 (final c))).
Proof.
  intros Hrc Hread Hpatch c attempt.
  rewrite (retry_loop_turn _ _ _ _ Hrc). cbv zeta.
  rewrite (recovery_attempt_restarted _ _ _ _ _ _ _ Hread Hpatch). fold c.
  cbn [result final emitted].
  destruct (endpointHealthy self s (sleep 10 w2)).
  - unfold attempt. now rewrite <- !app_assoc.
  - unfold attempt. now rewrite !app_nil_r.
Qed.

(** ** Loading the configuration *)

Lemma validate_config_cases (config : Document) w :
  _validate_config config w
  = match contains config "kubernetes", contains config "log_sources" with
    | Raise e, _ => {| final := w; emitted := []; result := Raise e |}
    | Ok false, _ =>
        {| final := w;
           emitted := [Log "LMMController" ERROR (MsgMissingField "kubernetes")];
           result := Raise (ValueError "Missing required field: kubernetes") |}
    | Ok true, Raise e => {| final := w; emitted := []; result := Raise e |}
    | Ok true, Ok false =>
        {| final := w;
           emitted := [Log "LMMController" ERROR (MsgMissingField "log_sources")];
           result := Raise (ValueError "Missing required field: log_sources") |}
    | Ok true, Ok true => {| final := w; emitted := []; result := Ok tt |}
    end.
Proof.
  unfold _validate_config, required_fields. cbn [for_each].
  rewrite bind_eq, bind_eq.
  destruct (contains config "kubernetes") as [[|]|e]; cbn [lift ret raise result];
    [|reflexivity|reflexivity].
  cbn [negb prepend ret result final emitted app]. rewrite bind_eq, bind_eq.
  destruct (contains config "log_sources") as [[|]|e]; reflexivity.
Qed.

(** [contains] never raises one of the exceptions [_load_config] handles. *)
Lemma contains_raises (config : Document) (field : string) e :
  contains config field = Raise e -> e = TypeError.
Proof. destruct config; cbn; congruence. Qed.

Lemma load_config_cases config_path w w1 (config : Document) :
  safe_load config_path w = (w1, Ok config) ->
  let opened := Requested (open_config_request config_path) None in
  _load_config config_path w
  = match contains config "kubernetes", contains config "log_sources" with
    | Raise e, _ => {| final := w1; emitted := [opened]; result := Raise e |}
    | Ok false, _ =>
        {| final := w1;
           emitted := [opened;
                       Log "LMMController" ERROR (MsgMissingField "kubernetes")];
           result := Raise (ValueError "Missing required field: kubernetes") |}
    | Ok true, Raise e => {| final := w1; emitted := [opened]; result := Raise e |}
    | Ok true, Ok false =>
        {| final := w1;
           emitted := [opened;
                       Log "LMMController" ERROR (MsgMissingField "log_sources")];
           result := Raise (ValueError "Missing required field: log_sources") |}
    | Ok true, Ok true => {| final := w1; emitted := [opened]; result := Ok config |}
    end.
Proof.
  intros Hload opened. unfold _load_config.
  erewrite try_except_run.
  2:{ run_step. rewrite Hload. cbn [fst snd result final emitted failure_of].
      rewrite bind_eq, validate_config_cases. reflexivity. }
  destruct (contains config "kubernetes") as [[|]|e] eqn:Hk; [| reflexivity |].
  - destruct (contains config "log_sources") as [[|]|e] eqn:Hl;
      [reflexivity|reflexivity|].
    apply contains_raises in Hl. subst e. reflexivity.
  - apply contains_raises in Hk. subst e. reflexivity.
Qed.

Lemma contains_one_kind (config : Document) (f g : string) e :
  contains config f = Raise e -> contains config g = Raise e.
Proof. destruct config; cbn; congruence. Qed.

Lemma load_config_dict config_path w w1 (config : Config) :
  safe_load config_path w = (w1, Ok (Dict config)) ->
  _load_config config_path w
  = match config !! "kubernetes", config !! "log_sources" with
    | None, _ =>
        {| final := w1;
           emitted := [Requested (open_config_request config_path) None;
                       Log "LMMController" ERROR (MsgMissingField "kubernetes")];
           result := Raise (ValueError "Missing required field: kubernetes") |}
    | Some _, None =>
        {| final := w1;
           emitted := [Requested (open_config_request config_path) None;
                       Log "LMMController" ERROR (MsgMissingField "log_sources")];
           result := Raise (ValueError "Missing required field: log_sources") |}
    | Some _, Some _ =>
        {| final := w1;
           emitted := [Requested (open_config_request config_path) None];
           result := Ok (Dict config) |}
    end.
Proof.
  intros Hload. rewrite (load_config_cases _ _ _ _ Hload). cbv zeta.
  cbn [contains].
  destruct (config !! "kubernetes"), (config !! "log_sources"); reflexivity.
Qed.

Lemma existsb_is_str (items : list Document) (field : string) :
  existsb (fun item => match item with
                       | Str text => String.eqb text field
                       | _ => false
                       end) items = true
  <-> In (Str field) items.
Proof.
  rewrite existsb_exists. split.
  - intros (item & Hin & Hitem). destruct item; try discriminate.
    apply String.eqb_eq in Hitem. now subst.
  - intros Hin. exists (Str field). split; [exact Hin|apply String.eqb_refl].
Qed.

(** C8, as the code has it: a document that parses to a mapping fails to
    load, with a [ValueError], exactly when the top-level key [kubernetes]
    or the top-level key [log_sources] is missing; with both it loads.  The
    [namespace] inside [kubernetes] is not validated: without it the
    document loads, and the constructor raises [KeyError].  A document
    that is not a mapping is tested by the same [in]: an empty document and
    a scalar that is not a string raise [TypeError], not [ValueError]; a
    string or a sequence fails with a [ValueError] exactly when one of the
    two names does not occur in it, as a substring or as an element, and
    loads otherwise, after which the constructor raises [TypeError]. *)
Theorem load_config_requires_top_level_fields config_path w w1 (config : Document) :
  safe_load config_path w = (w1, Ok config) ->
  let opened := Requested (open_config_request config_path) None in
  let fails :=
    exists message, result (_load_config config_path w) = Raise (ValueError message) in
  let loads :=
    _load_config config_path w
    = {| final := w1; emitted := [opened]; result := Ok config |} in
  match config with
  | Dict entries =>
      (fails <-> entries !! "kubernetes" = None \/ entries !! "log_sources" = None)
      /\ (is_Some (entries !! "kubernetes") -> is_Some (entries !! "log_sources") ->
          loads)
      /\ (forall w0 kubernetes,
            load_kube_config w0 = (w, Ok tt) ->
            entries !! "kubernetes" = Some (Mapping kubernetes) ->
            kubernetes !! "namespace" = None ->
            is_Some (entries !! "log_sources") ->
            result (__init__ config_path w0) = Raise (KeyError "namespace"))
  | NoneDocument | OtherScalar =>
      _load_config config_path w
      = {| final := w1; emitted := [opened]; result := Raise TypeError |}
  | Str text =>
      (fails <-> occurs "kubernetes" text = false \/ occurs "log_sources" text = false)
      /\ (occurs "kubernetes" text = true -> occurs "log_sources" text = true ->
          loads
          /\ forall w0,
               load_kube_config w0 = (w, Ok tt) ->
               result (__init__ config_path w0) = Raise TypeError)
  | Sequence items =>
      (fails <-> ~ In (Str "kubernetes") items \/ ~ In (Str "log_sources") items)
      /\ (In (Str "kubernetes") items -> In (Str "log_sources") items ->
          loads
          /\ forall w0,
               load_kube_config w0 = (w, Ok tt) ->
               result (__init__ config_path w0) = Raise TypeError)
  end.
Proof.
  intros Hload opened fails loads. subst fails loads.
  pose proof (load_config_cases _ _ _ _ Hload) as Hcases. cbv zeta in Hcases.
  fold opened in Hcases.
  assert (Hinit : forall w0 e,
            load_kube_config w0 = (w, Ok tt) ->
            _load_config config_path w
            = {| final := w1; emitted := [opened]; result := Ok config |} ->
            kubernetes_namespace config = Raise e ->
            result (__init__ config_path w0) = Raise e).
  { intros w0 e Hkube Hloads Hns. unfold __init__.
    rewrite bind_eq. erewrite try_except_run.
    2:{ unfold request. rewrite Hkube. reflexivity. }
    cbn [result final emitted fst snd prepend].
    rewrite bind_eq, Hloads. cbn [result final emitted prepend].
    rewrite bind_eq, Hns. reflexivity. }
  destruct config as [entries| |text|items|]; cbn [contains] in Hcases.
  - pose proof (load_config_dict _ _ _ _ Hload) as Hdict.
    split; [|split].
    + rewrite Hdict.
      destruct (entries !! "kubernetes") as [k|], (entries !! "log_sources") as [l|];
        cbn [result]; split; eauto; intros H; destruct H; discriminate.
    + intros [k Hk] [l Hl]. rewrite Hdict, Hk, Hl. reflexivity.
    + intros w0 kubernetes Hkube Hk Hns [l Hl].
      apply (Hinit w0 _ Hkube).
      * rewrite Hdict, Hk, Hl. reflexivity.
      * unfold kubernetes_namespace, getitem. now rewrite Hk, Hns.
  - exact Hcases.
  - split.
    + rewrite Hcases.
      destruct (occurs "kubernetes" text), (occurs "log_sources" text);
        cbn [result]; split; eauto; intros H; destruct H; discriminate.
    + intros Hk Hl. rewrite Hk, Hl in Hcases. split; [exact Hcases|].
      intros w0 Hkube. now apply (Hinit w0 _ Hkube).
  - pose proof (existsb_is_str items "kubernetes") as Ik.
    pose proof (existsb_is_str items "log_sources") as Il.
    split.
    + rewrite Hcases.
      destruct (existsb _ items), (existsb _ items); cbn [result]; split.
      all: try (intros [message H]; discriminate H).
      all: try (intros [H|H]; exfalso; apply H; tauto).
      all: intros _; try (eexists; reflexivity).
      all: try (left; intros H; apply Ik in H; discriminate H).
      all: right; intros H; apply Il in H; discriminate H.
    + intros Hk Hl. apply Ik in Hk. apply Il in Hl. rewrite Hk, Hl in Hcases.
      split; [exact Hcases|].
      intros w0 Hkube. now apply (Hinit w0 _ Hkube).
  - exact Hcases.
Qed.

End Properties.

(** * The properties on the simulated cluster *)

Module Scenarios.

Import Sim.

(** In the simulated cluster every refusal is an [ApiException]. *)
Lemma sim_client_raises_ApiException : client_raises_ApiException (World := World).
Proof.
  split.
  - intros n ns w e. simpl. unfold guarded, find_deployment.
    destruct (fault w ("read:" +:+ n)); simpl.
    + now intros [= <-].
    + destruct (List.find (named n) (deployments w)); simpl; [discriminate|].
      now intros [= <-].
  - intros n ns body w e. simpl. unfold guarded, present, find_deployment.
    destruct (fault w ("patch:" +:+ n)); simpl.
    + now intros [= <-].
    + destruct (List.find (named n) (deployments w)); simpl; [discriminate|].
      now intros [= <-].
Qed.

(** Scenario A: an enabled source that is not observed is created with
    its minimum. *)
Example scenario_A :
  actions (emitted (reconcile (controller app1_wanted) ∅ app1_wanted
                      (quiet app1_wanted [] nobody)))
  = [Create "app1" 2].
Proof. vm_compute. reflexivity. Qed.

(** Scenario B: a disabled source that is observed is deleted. *)
Example scenario_B :
  actions (emitted (reconcile (controller app1_unwanted) app1_observed app1_unwanted
                      ready))
  = [Delete "app1"].
Proof. vm_compute. reflexivity. Qed.

(** Scenario C: all replicas available, all probes healthy. *)
Example scenario_C :
  result (monitor_lfr_health (controller []) ready) = Ok [("app1", true)].
Proof. vm_compute. reflexivity. Qed.

(** Scenario D: one replica missing, all probes healthy. *)
Example scenario_D :
  result (monitor_lfr_health (controller []) degraded) = Ok [("app1", false)].
Proof. vm_compute. reflexivity. Qed.

(** Scenario E: unhealthy after the first restart, healthy after the second. *)
Example scenario_E :
  result (_handle_unhealthy_deployment (controller []) "app1" heals) = Ok Healthy
  /\ count is_attempt
       (emitted (_handle_unhealthy_deployment (controller []) "app1" heals)) = 2%nat
  /\ count is_restart
       (emitted (_handle_unhealthy_deployment (controller []) "app1" heals)) = 2%nat.
Proof. repeat split; vm_compute; reflexivity. Qed.

(** Scenario F: unhealthy through all three attempts. *)
Example scenario_F :
  result (_handle_unhealthy_deployment (controller []) "app1" sick) = Ok Failed
  /\ count is_attempt
       (emitted (_handle_unhealthy_deployment (controller []) "app1" sick)) = 3%nat
  /\ count is_restart
       (emitted (_handle_unhealthy_deployment (controller []) "app1" sick)) = 3%nat.
Proof. repeat split; vm_compute; reflexivity. Qed.

(** The pods of scenario F stay unhealthy through the three attempts, those
    of scenario E do not. *)
Example who_stays_unhealthy :
  stays_unhealthy (controller []) "app1" 3 sick = true
  /\ stays_unhealthy (controller []) "app1" 3 heals = false.
Proof. split; vm_compute; reflexivity. Qed.


(** The listing of the deployments is refused: an empty dict comes back. *)
Example monitor_when_listing_is_refused :
  result (monitor_lfr_health (controller []) unlistable) = Ok []
  /\ emitted (monitor_lfr_health (controller []) unlistable)
     = [Requested (list_deployment_request "logging" "app=lfr")
          (Some (ApiException 503));
        Log "LMMController" ERROR (MsgDeploymentHealthFailed (ApiException 503))].
Proof. split; vm_compute; reflexivity. Qed.


(** C3 on scenario D. *)
Lemma combined_verdict_is_conjunction_witness :
  exists hs,
    result (monitor_lfr_health (controller []) degraded) = Ok hs
    /\ dict_get hs "app1"
       = Some (deployment_healthy (deployment "app1" 3 (Some 2))
               && endpointHealthy (controller []) "app1" degraded).
Proof.
  destruct (combined_verdict_is_conjunction (controller []) degraded degraded []
              (deployment "app1" 3 (Some 2)) [] "app1") as (hs & Hres & Hget & _).
  - reflexivity.
  - repeat constructor. eexists. reflexivity.
  - reflexivity.
  - constructor.
  - exists hs. split; [exact Hres|exact Hget].
Defined.

(** C9 on a deployment that has not reported its status. *)
Lemma missing_available_replicas_is_unhealthy_witness :
  exists hs,
    result (monitor_lfr_health (controller []) unreported) = Ok hs
    /\ dict_get hs "app1" = Some false.
Proof.
  apply (missing_available_replicas_is_unhealthy (controller []) unreported unreported
           [] (deployment "app1" 3 None) [] "app1").
  - reflexivity.
  - repeat constructor. eexists. reflexivity.
  - reflexivity.
  - constructor.
  - reflexivity.
Defined.



(** C6 as stated fails: one replica is missing, so the full verdict is
    unhealthy before, during and after the episode, yet the episode ends
    [Healthy] after its first attempt because the endpoints answer. *)
Lemma recovery_ignores_the_replica_counts :
  result (monitor_lfr_health (controller []) degraded) = Ok [("app1", false)]
  /\ result (_handle_unhealthy_deployment (controller []) "app1" degraded) = Ok Healthy
  /\ count is_attempt
       (emitted (_handle_unhealthy_deployment (controller []) "app1" degraded)) = 1%nat
  /\ result (monitor_lfr_health (controller [])
               (final (_handle_unhealthy_deployment (controller []) "app1" degraded)))
     = Ok [("app1", false)].
Proof. repeat split; vm_compute; reflexivity. Qed.

(** C6 as the code has it, on scenario D. *)
Lemma recovery_success_is_the_endpoint_check_witness :
  endpointHealthy (controller []) "app1" (sleep 10 (Sim.with_restarts degraded 1)) = true
  /\ result (retry_loop (controller []) "app1" 0 degraded) = Ok Healthy.
Proof.
  split; [vm_compute; reflexivity|].
  rewrite (recovery_success_is_the_endpoint_check (controller []) "app1" 0 degraded
             degraded (deployment "app1" 3 (Some 2)) (Sim.with_restarts degraded 1)).
  - vm_compute. reflexivity.
  - reflexivity.
  - reflexivity.
  - reflexivity.
Defined.

(** C8 as stated fails: without [namespace] the document loads and no
    [ValueError] is raised, the constructor raises [KeyError]; and a
    document with [namespace] and [log_sources] at the top level fails to
    load. *)
Lemma missing_namespace_is_not_a_ValueError :
  kubernetes_namespace (Dict no_namespace) = Raise (KeyError "namespace")
  /\ result (_load_config path (serves no_namespace)) = Ok (Dict no_namespace)
  /\ result (__init__ path (serves no_namespace)) = Raise (KeyError "namespace")
  /\ result (_load_config path (serves top_level_namespace))
     = Raise (ValueError "Missing required field: kubernetes").
Proof. repeat split; vm_compute; reflexivity. Qed.

(** C8 as the code has it, on the document without [namespace]. *)
Lemma load_config_requires_top_level_fields_witness :
  _load_config path (serves no_namespace)
  = {| final := serves no_namespace;
       emitted := [Requested (open_config_request path) None];
       result := Ok (Dict no_namespace) |}.
Proof.
  assert (Hload : safe_load path (serves no_namespace)
                  = (serves no_namespace, Ok (Dict no_namespace))) by reflexivity.
  destruct (load_config_requires_top_level_fields path (serves no_namespace)
              (serves no_namespace) (Dict no_namespace) Hload) as (_ & Hloads & _).
  apply Hloads; eexists; reflexivity.
Defined.

(** An empty file is not refused with a [ValueError]: the membership test
    itself raises [TypeError].  A line of text in which both names occur
    passes the validation, and the constructor raises [TypeError]. *)
Example documents_that_are_not_mappings :
  result (_load_config path empty_file) = Raise TypeError
  /\ result (_load_config path line_of_text) = Ok one_line
  /\ result (__init__ path line_of_text) = Raise TypeError.
Proof. repeat split; vm_compute; reflexivity. Qed.

End Scenarios.

(** * Further properties of the controller *)

Section Coverage.

Context {World : Type}.
Context `{!ClusterStateClient World, !EndpointProber World,
          !Host World, !ScalingPolicy World}.

Implicit Types (w : World) (self : LMMController) (e : exn).

Ltac run_step :=
  rewrite bind_eq;
  cbn [result final emitted log emit ret raise lift request request_free
       time_sleep time_strftime reify fst snd failure_of].

Ltac run_done :=
  unfold prepend, ret, raise; cbn [final emitted result app]; reflexivity.

(** ** Construction and configuration *)

(** X1: when the configuration file cannot be read, [_load_config] maps
    the error: a [YAMLError] is logged and replaced by a [ValueError] whose
    message is [Invalid YAML configuration: ] followed by the text of the
    error; a [FileNotFoundError] is logged and replaced by a new
    [FileNotFoundError] whose message is [Configuration file not found: ]
    followed by the path, whatever the message of the first was; any other
    exception passes through unchanged, without a log line. *)
Theorem load_config_maps_read_errors config_path w w1 e :
  safe_load config_path w = (w1, Raise e) ->
  _load_config config_path w
  = match e with
    | YAMLError problem =>
        {| final := w1;
           emitted := [Requested (open_config_request config_path) (Some e);
                       Log "LMMController" ERROR (MsgInvalidYaml e)];
           result := Raise (ValueError ("Invalid YAML configuration: " +:+ problem)) |}
    | FileNotFoundError _ =>
        {| final := w1;
           emitted := [Requested (open_config_request config_path) (Some e);
                       Log "LMMController" ERROR (MsgConfigNotFound config_path)];
           result := Raise (FileNotFoundError
                              ("Configuration file not found: " +:+ config_path)) |}
    | other =>
        {| final := w1;
           emitted := [Requested (open_config_request config_path) (Some other)];
           result := Raise other |}
    end.
Proof.
  intros Hload. unfold _load_config.
  erewrite try_except_run.
  2:{ run_step. rewrite Hload. cbn [fst snd result final emitted failure_of].
      reflexivity. }
  cbn [result final emitted].
  destruct e; try reflexivity; run_step; run_done.
Qed.

(** X2: when the kube configuration cannot be loaded the constructor
    stops there: a [ConfigException] is logged and becomes a
    [RuntimeError], any other exception passes through; the configuration
    file is not opened and the metrics server is not started. *)
Theorem init_stops_without_kube_config config_path w w1 e :
  load_kube_config w = (w1, Raise e) ->
  __init__ config_path w
  = if is_ConfigException e
    then {| final := w1;
            emitted := [Requested load_kube_config_request (Some e);
                        Log "LMMController" ERROR (MsgKubeConfigFailed e)];
            result := Raise RuntimeError |}
    else {| final := w1;
            emitted := [Requested load_kube_config_request (Some e)];
            result := Raise e |}.
Proof.
  intros Hkube. unfold __init__. rewrite bind_eq.
  erewrite try_except_run.
  2:{ unfold request. rewrite Hkube. reflexivity. }
  cbn [result final emitted fst snd failure_of].
  destruct (is_ConfigException e); [|reflexivity].
  run_step. run_done.
Qed.

(** X3: with the kube configuration loaded and a document that holds
    [log_sources] and [kubernetes] with a [namespace], the constructor
    starts the metrics server on port 8000 as its last step and returns a
    controller with that path, document and namespace; if the server does
    not start, its exception is what the constructor raises. *)
Theorem init_builds_the_controller config_path w w1 w2 (config : Config)
    kubernetes ns :
  load_kube_config w = (w1, Ok tt) ->
  safe_load config_path w1 = (w2, Ok (Dict config)) ->
  config !! "kubernetes" = Some (Mapping kubernetes) ->
  kubernetes !! "namespace" = Some ns ->
  is_Some (config !! "log_sources") ->
  __init__ config_path w
  = {| final := fst (start_http_server 8000 w2);
       emitted :=
         [Requested load_kube_config_request None;
          Requested (open_config_request config_path) None;
          Requested (start_http_server_request 8000)
            (failure_of (snd (start_http_server 8000 w2)))];
       result :=
         match snd (start_http_server 8000 w2) with
         | Ok _ => Ok {| config_path := config_path; config := Dict config;
                         namespace := ns |}
         | Raise e => Raise e
         end |}.
Proof.
  intros Hkube Hload Hk Hns [l Hl].
  pose proof (load_config_dict _ _ _ _ Hload) as Hcases.
  rewrite Hk, Hl in Hcases. unfold __init__.
  rewrite bind_eq. erewrite try_except_run.
  2:{ unfold request. rewrite Hkube. reflexivity. }
  cbn [result final emitted fst snd failure_of prepend].
  rewrite bind_eq, Hcases. cbn [result final emitted prepend].
  rewrite bind_eq. unfold kubernetes_namespace, getitem. rewrite Hk, Hns.
  cbn [lift ret result final emitted]. unfold _setup_metrics.
  run_step.
  destruct (start_http_server 8000 w2) as [w3 [[]|e]]; run_done.
Qed.

(** ** The control loop *)

Lemma bind_ends_with {A B} (m : M World A) (k : A -> M World B) w ev b :
  result (bind m k w) = Ok b ->
  (forall a w', result (k a w') = Ok b -> exists pre, emitted (k a w') = pre ++ [ev]) ->
  exists pre, emitted (bind m k w) = pre ++ [ev].
Proof.
  rewrite bind_eq. destruct (result (m w)) as [a|e]; [|discriminate].
  cbn [prepend result emitted]. intros Hok Hk.
  destruct (Hk _ _ Hok) as [pre Hpre].
  exists (emitted (m w) ++ pre). now rewrite Hpre, app_assoc.
Qed.

Lemma cycle_steps_ends_with_sleep self w :
  result (cycle_steps self w) = Ok tt ->
  exists pre, emitted (cycle_steps self w) = pre ++ [Sleep 30].
Proof.
  unfold cycle_steps. intros H.
  eapply bind_ends_with; [exact H|]. intros a1 w1 H1.
  eapply bind_ends_with; [exact H1|]. intros a2 w2 H2.
  eapply bind_ends_with; [exact H2|]. intros a3 w3 H3.
  eapply bind_ends_with; [exact H3|]. intros a4 w4 H4.
  eapply bind_ends_with; [exact H4|]. intros a5 w5 _.
  exists []. reflexivity.
Qed.

Lemma cycle_cases self w :
  let reload := _load_config (config_path self) w in
  cycle self w
  = match result reload with
    | Raise e =>
        {| final := sleep 60 (final reload);
           emitted := emitted reload
                      ++ [Log "LMMController" ERROR (MsgControlLoopError e); Sleep 60];
           result := Ok self |}
    | Ok config =>
        let steps := cycle_steps (set_config self config) (final reload) in
        match result steps with
        | Ok _ =>
            {| final := final steps; emitted := emitted reload ++ emitted steps;
               result := Ok (set_config self config) |}
        | Raise e =>
            {| final := sleep 60 (final steps);
               emitted := emitted reload ++ emitted steps
                          ++ [Log "LMMController" ERROR (MsgControlLoopError e);
                              Sleep 60];
               result := Ok (set_config self config) |}
        end
    end.
Proof.
  intros reload. unfold cycle. run_step. fold reload.
  destruct (result reload) as [config|e].
  - cbv zeta. rewrite bind_eq.
    rewrite (try_except_run _ _ _ _ _ eq_refl).
    destruct (result (cycle_steps (set_config self config) (final reload)))
      as [[]|e] eqn:Hsteps.
    + rewrite Hsteps. unfold prepend, ret. cbn [final emitted result].
      now rewrite app_nil_r.
    + cbn [is_Exception]. unfold on_cycle_error. run_step.
      unfold prepend, ret. cbn [final emitted result time_sleep].
      now rewrite app_nil_r.
  - unfold on_cycle_error. run_step. run_step. run_done.
Qed.

(** X4: a pass in which the configuration cannot be reloaded does nothing
    else: the error is logged, the pass sleeps 60, no request is sent to
    the cluster, and the controller keeps the configuration it had. *)
Theorem failed_reload_keeps_the_configuration self w e :
  result (_load_config (config_path self) w) = Raise e ->
  cycle self w
  = {| final := sleep 60 (final (_load_config (config_path self) w));
       emitted := emitted (_load_config (config_path self) w)
                  ++ [Log "LMMController" ERROR (MsgControlLoopError e); Sleep 60];
       result := Ok self |}.
Proof. intros Hreload. rewrite cycle_cases. cbv zeta. now rewrite Hreload. Qed.

(** X5: a pass of the control loop never raises, whatever the cluster,
    the pods or the configuration file do; it leaves the path and the
    namespace of the controller as they were, and its last event is a sleep:
    of 30 when the reload and every step after it went through, of 60
    otherwise. *)
Theorem pass_never_raises_and_ends_asleep self w :
  exists self' pre seconds,
    result (cycle self w) = Ok self'
    /\ config_path self' = config_path self
    /\ namespace self' = namespace self
    /\ emitted (cycle self w) = pre ++ [Sleep seconds]
    /\ (seconds = 30 \/ seconds = 60)
    /\ (seconds = 30 <->
        exists config,
          result (_load_config (config_path self) w) = Ok config
          /\ result (cycle_steps (set_config self config)
                       (final (_load_config (config_path self) w))) = Ok tt).
Proof.
  rewrite cycle_cases. cbv zeta.
  destruct (result (_load_config (config_path self) w)) as [config|e] eqn:Hreload.
  - destruct (result (cycle_steps (set_config self config)
                        (final (_load_config (config_path self) w))))
      as [[]|e] eqn:Hsteps.
    + destruct (cycle_steps_ends_with_sleep _ _ Hsteps) as [pre Hpre].
      exists (set_config self config), (emitted (_load_config (config_path self) w) ++ pre), 30.
      cbn [result emitted]. rewrite Hpre, app_assoc.
      repeat split; auto. intros _. exists config. split; [reflexivity|exact Hsteps].
    + exists (set_config self config),
        (emitted (_load_config (config_path self) w)
         ++ emitted (cycle_steps (set_config self config)
                       (final (_load_config (config_path self) w)))
         ++ [Log "LMMController" ERROR (MsgControlLoopError e)]), 60.
      cbn [result emitted]. rewrite <- !app_assoc.
      repeat split; auto; try discriminate.
      intros (config' & [= <-] & Hok). rewrite Hsteps in Hok. discriminate.
  - exists self,
      (emitted (_load_config (config_path self) w)
       ++ [Log "LMMController" ERROR (MsgControlLoopError e)]), 60.
    cbn [result emitted]. rewrite <- !app_assoc.
    repeat split; auto; try discriminate.
    intros (config' & Hok & _). discriminate.
Qed.

Lemma cycle_result self w :
  exists self',
    result (cycle self w) = Ok self'
    /\ config_path self' = config_path self
    /\ namespace self' = namespace self.
Proof.
  rewrite cycle_cases. cbv zeta.
  destruct (result (_load_config (config_path self) w)) as [config|e].
  - destruct (result (cycle_steps (set_config self config)
                        (final (_load_config (config_path self) w)))) as [[]|e];
      exists (set_config self config); repeat split.
  - exists self. repeat split.
Qed.

(** X6: the control loop goes on for any number of passes: nothing that
    happens in a pass makes [manage_lfr_instances] raise, and the
    namespace chosen at construction is the one every later pass works in,
    whatever the reloaded documents say. *)
Theorem control_loop_never_stops (n : nat) self w :
  exists self',
    result (manage_lfr_instances n self w) = Ok self'
    /\ config_path self' = config_path self
    /\ namespace self' = namespace self.
Proof.
  unfold manage_lfr_instances. run_step. cbn [prepend result].
  revert self w. induction n as [|n IH]; intros self w.
  - exists self. repeat split.
  - cbn [cycles]. rewrite bind_eq.
    destruct (cycle_result self w) as (self1 & Hres & Hpath & Hns).
    rewrite Hres. cbn [prepend result].
    destruct (IH self1 (final (cycle self w))) as (self' & Hres' & Hpath' & Hns').
    exists self'. rewrite Hres', Hpath', Hns'. repeat split; assumption.
Qed.

(** ** Indexing the observed deployments *)

Lemma index_by_source_labelled (items : list V1Deployment) :
  forall acc : gmap string V1Deployment,
  Forall has_source items ->
  exists m : gmap string V1Deployment,
    index_by_source items acc = Ok m
    /\ (forall s : string,
          is_Some (m !! s) <->
          is_Some (acc !! s)
          \/ exists d, In d items /\ labels d !! "source" = Some s)
    /\ (size m <= size acc + length items)%nat.
Proof.
  induction items as [|d rest IH]; intros acc Hall.
  - exists acc. split; [reflexivity|]. split; [|simpl; lia].
    intros s. split; [auto|]. intros [H|(d & [] & _)]. exact H.
  - inversion Hall as [|? ? [s0 Hs0] Hall']; subst.
    destruct (IH (<[s0 := d]> acc) Hall') as (m & Hm & Hdom & Hsize).
    exists m. cbn [index_by_source]. rewrite Hs0. split; [exact Hm|]. split.
    + intros s. rewrite Hdom, lookup_insert_is_Some. split.
      * intros [[->|[_ H]]|(d' & Hin & Hd')].
        -- right. exists d. split; [now left|exact Hs0].
        -- now left.
        -- right. exists d'. split; [now right|exact Hd'].
      * intros [H|(d' & [<-|Hin] & Hd')].
        -- destruct (decide (s0 = s)) as [->|Hne]; left; [now left|right; auto].
        -- left. left. congruence.
        -- right. exists d'. split; assumption.
    + rewrite map_size_insert in Hsize. cbn [length].
      destruct (acc !! s0); simpl in Hsize; lia.
Qed.

Lemma index_by_source_unlabelled (items : list V1Deployment) :
  forall acc : gmap string V1Deployment,
  Exists (fun d => labels d !! "source" = None) items ->
  index_by_source items acc = Raise (KeyError "source").
Proof.
  induction items as [|d rest IH]; intros acc Hex.
  - inversion Hex.
  - cbn [index_by_source]. destruct (labels d !! "source") as [s|] eqn:Hs.
    + apply IH. inversion Hex as [? ? Hd|? ? Hrest]; subst; [congruence|exact Hrest].
    + reflexivity.
Qed.

(** X7: the dict of observed deployments built at the start of a pass has
    exactly the [source] labels of the listed deployments as keys, so it is
    never larger than the listing and two deployments with the same label
    count once; a single deployment without the label makes the
    construction raise [KeyError]. *)
Theorem observed_sources_are_the_labels (items : list V1Deployment) :
  (Forall has_source items ->
   exists observed : gmap string V1Deployment,
     index_by_source items ∅ = Ok observed
     /\ (forall s : string,
           is_Some (observed !! s) <->
           exists d, In d items /\ labels d !! "source" = Some s)
     /\ (size observed <= length items)%nat)
  /\ (Exists (fun d => labels d !! "source" = None) items ->
      index_by_source items ∅ = Raise (KeyError "source")).
Proof.
  split; [|apply index_by_source_unlabelled].
  intros Hall.
  destruct (index_by_source_labelled items ∅ Hall) as (m & Hm & Hdom & Hsize).
  exists m. split; [exact Hm|]. split.
  - intros s. rewrite Hdom. split; [|auto].
    intros [H|H]; [|exact H]. rewrite lookup_empty in H. now destruct H.
  - rewrite map_size_empty in Hsize. exact Hsize.
Qed.

(** ** The health dict *)

Lemma dict_get_set_is_Some {V} (d : list (string * V)) (k k' : string) v :
  is_Some (dict_get (dict_set d k v) k') <-> k = k' \/ is_Some (dict_get d k').
Proof.
  destruct (decide (k = k')) as [<-|Hne].
  - rewrite dict_get_set_eq. split; [auto|eauto].
  - rewrite dict_get_set_ne by exact Hne. split; [auto|]. intros [H|H]; [contradiction|exact H].
Qed.

Lemma dict_set_keys {V} (d : list (string * V)) (k : string) v :
  List.map fst (dict_set d k v)
  = if existsb (String.eqb k) (List.map fst d)
    then List.map fst d
    else List.map fst d ++ [k].
Proof.
  induction d as [|[k0 v0] rest IH]; [reflexivity|].
  cbn [dict_set List.map fst existsb].
  rewrite (String.eqb_sym k k0).
  destruct (String.eqb k0 k) eqn:E; cbn [orb List.map fst]; [reflexivity|].
  rewrite IH. now destruct (existsb (String.eqb k) (List.map fst rest)).
Qed.

Lemma dict_set_NoDup {V} (d : list (string * V)) (k : string) v :
  List.NoDup (List.map fst d) -> List.NoDup (List.map fst (dict_set d k v)).
Proof.
  intros Hnd. rewrite dict_set_keys.
  destruct (existsb (String.eqb k) (List.map fst d)) eqn:E; [exact Hnd|].
  apply List.NoDup_app; [exact Hnd|repeat constructor; intros []|].
  intros k' Hin [<-|[]].
  assert (existsb (String.eqb k) (List.map fst d) = true) as Hex.
  { apply existsb_exists. exists k. split; [exact Hin|apply String.eqb_refl]. }
  congruence.
Qed.

Lemma dict_set_length {V} (d : list (string * V)) (k : string) v :
  (length (dict_set d k v) <= S (length d))%nat.
Proof.
  induction d as [|[k0 v0] rest IH]; cbn [dict_set length]; [lia|].
  destruct (String.eqb k0 k); cbn [length]; lia.
Qed.

Lemma probe_event_not_gauge ev : is_probe_event ev = true -> is_gauge ev = false.
Proof. destruct ev as [[] ?|? [] []| | |]; simpl; congruence. Qed.

Lemma monitor_loop_labelled self (items : list V1Deployment) :
  forall hs w,
  Forall has_source items ->
  let o := monitor_loop self items hs w in
  exists hs',
    result o = Ok (hs', Ok tt)
    /\ (forall s : string,
          is_Some (dict_get hs' s) <->
          is_Some (dict_get hs s)
          \/ exists d, In d items /\ labels d !! "source" = Some s)
    /\ (List.NoDup (List.map fst hs) -> List.NoDup (List.map fst hs'))
    /\ (length hs' <= length hs + length items)%nat
    /\ count is_gauge (emitted o) = length items.
Proof.
  induction items as [|d rest IH]; intros hs w Hall; cbv zeta.
  - exists hs. split; [reflexivity|]. split.
    { intros s. split; [auto|]. intros [H|(d & [] & _)]. exact H. }
    split; [auto|]. split; [simpl; lia|reflexivity].
  - inversion Hall as [|? ? [s0 Hs0] Hall']; subst.
    rewrite (monitor_loop_cons _ _ _ _ _ _ Hs0). cbn [result emitted].
    set (v := deployment_healthy d && endpointHealthy self s0 w).
    destruct (IH (dict_set hs s0 v) (final (_check_endpoint_health self s0 w)) Hall')
      as (hs' & Hres & Hkeys & Hnd & Hlen & Hgauges).
    exists hs'. split; [exact Hres|]. split; [|split; [|split]].
    + intros s. rewrite Hkeys, dict_get_set_is_Some. split.
      * intros [[->|H]|(d' & Hin & Hd')].
        -- right. exists d. split; [now left|exact Hs0].
        -- now left.
        -- right. exists d'. split; [now right|exact Hd'].
      * intros [H|(d' & [<-|Hin] & Hd')].
        -- left. now right.
        -- left. left. congruence.
        -- right. exists d'. split; assumption.
    + intros H. apply Hnd. now apply dict_set_NoDup.
    + pose proof (dict_set_length hs s0 v). cbn [length]. lia.
    + rewrite count_app.
      rewrite (check_endpoint_health_count self s0 w is_gauge probe_event_not_gauge).
      change (count is_gauge (?e :: ?l)) with (S (count is_gauge l)).
      cbn [Nat.add length]. now rewrite Hgauges.
Qed.

Lemma monitor_loop_unlabelled self (pre : list V1Deployment) :
  forall d suf hs w,
  Forall has_source pre ->
  labels d !! "source" = None ->
  let o := monitor_loop self (pre ++ d :: suf) hs w in
  exists hs',
    result o = Ok (hs', Raise (KeyError "source"))
    /\ count is_gauge (emitted o) = length pre.
Proof.
  induction pre as [|p pre IH]; intros d suf hs w Hall Hd; cbv zeta.
  - exists hs. cbn [app monitor_loop]. rewrite Hd. split; reflexivity.
  - inversion Hall as [|? ? [s0 Hs0] Hall']; subst.
    cbn [app]. rewrite (monitor_loop_cons _ _ _ _ _ _ Hs0). cbn [result emitted].
    destruct (IH d suf
                (dict_set hs s0 (deployment_healthy p && endpointHealthy self s0 w))
                (final (_check_endpoint_health self s0 w)) Hall' Hd)
      as (hs' & Hres & Hgauges).
    exists hs'. split; [exact Hres|].
    rewrite count_app.
    rewrite (check_endpoint_health_count self s0 w is_gauge probe_event_not_gauge).
    change (count is_gauge (?e :: ?l)) with (S (count is_gauge l)).
    cbn [Nat.add length]. now rewrite Hgauges.
Qed.

Lemma monitor_lfr_health_after_listing self w w1 items :
  list_namespaced_deployment (namespace self) "app=lfr" w = (w1, Ok items) ->
  let o := monitor_loop self items [] w1 in
  forall hs r, result o = Ok (hs, r) ->
  monitor_lfr_health self w
  = prepend
      (Requested (list_deployment_request (namespace self) "app=lfr") None :: emitted o)
      (match r with
       | Ok _ => ret hs (final o)
       | Raise e =>
           if is_ApiException e
           then bind (log "LMMController" ERROR (MsgDeploymentHealthFailed e))
                  (fun _ => ret hs) (final o)
           else raise e (final o)
       end).
Proof.
  intros Hlist o hs r Hres. unfold monitor_lfr_health.
  run_step. rewrite Hlist. cbn [fst snd result final emitted failure_of].
  rewrite bind_eq. fold o. rewrite Hres. rewrite prepend_prepend.
  destruct r as [[]|e]; [reflexivity|]. now destruct (is_ApiException e).
Qed.

(** X8: when every listed deployment carries the [source] label, the
    health dict has exactly those labels as keys, each once, and one health
    gauge is set per listed deployment, also when two deployments share a
    label. *)
Theorem health_dict_keys_are_the_labels self w w1 (items : list V1Deployment) :
  list_namespaced_deployment (namespace self) "app=lfr" w = (w1, Ok items) ->
  Forall has_source items ->
  exists hs,
    result (monitor_lfr_health self w) = Ok hs
    /\ (forall s : string,
          is_Some (dict_get hs s) <->
          exists d, In d items /\ labels d !! "source" = Some s)
    /\ List.NoDup (List.map fst hs)
    /\ (length hs <= length items)%nat
    /\ count is_gauge (emitted (monitor_lfr_health self w)) = length items.
Proof.
  intros Hlist Hall.
  destruct (monitor_loop_labelled self items [] w1 Hall)
    as (hs & Hres & Hkeys & Hnd & Hlen & Hgauges).
  rewrite (monitor_lfr_health_after_listing _ _ _ _ Hlist _ _ Hres).
  exists hs. cbn [prepend ret result emitted]. split; [reflexivity|]. split.
  - intros s. rewrite Hkeys. split; [|auto].
    intros [[v H]|H]; [discriminate|exact H].
  - split; [apply Hnd; constructor|]. split; [exact Hlen|].
    rewrite app_nil_r.
    change (count is_gauge (?e :: ?l)) with (count is_gauge l). exact Hgauges.
Qed.

(** X9: a listed deployment without the [source] label makes
    [monitor_lfr_health] raise [KeyError]: the error is not swallowed, the
    verdicts already computed are lost, and only the deployments before it
    have had their gauge set. *)
Theorem unlabelled_deployment_breaks_the_health_check self w w1
    (pre : list V1Deployment) d suf :
  list_namespaced_deployment (namespace self) "app=lfr" w
  = (w1, Ok (pre ++ d :: suf)) ->
  Forall has_source pre ->
  labels d !! "source" = None ->
  result (monitor_lfr_health self w) = Raise (KeyError "source")
  /\ count is_gauge (emitted (monitor_lfr_health self w)) = length pre.
Proof.
  intros Hlist Hall Hd.
  destruct (monitor_loop_unlabelled self pre d suf [] w1 Hall Hd) as (hs & Hres & Hgauges).
  rewrite (monitor_lfr_health_after_listing _ _ _ _ Hlist _ _ Hres).
  cbn [is_ApiException prepend raise result emitted]. split; [reflexivity|].
  rewrite app_nil_r.
  change (count is_gauge (?e :: ?l)) with (count is_gauge l). exact Hgauges.
Qed.

(** ** Probing the pods *)




(** ** Sources that cannot be created *)

(** X11: an enabled source that is not observed and has no [instances],
    or no [min] under it, makes the pass raise [KeyError] before anything
    is asked of the cluster, and the sources after it are not processed. *)
Theorem source_without_minimum_raises self observed source rest w :
  enabled source = true ->
  observed !! name source = None ->
  minReplicas source = None ->
  exists key,
    (key = "instances" \/ key = "min")
    /\ reconcile self observed (source :: rest) w
       = {| final := w; emitted := []; result := Raise (KeyError key) |}.
Proof.
  intros Hon Habsent Hmin. unfold reconcile. rewrite for_each_cons.
  unfold reconcile_source, minReplicas in *. rewrite Hon, Habsent.
  destruct (instances source) as [i|].
  - exists "min". split; [now right|]. unfold bind, lift. simpl.
    rewrite Hmin. reflexivity.
  - exists "instances". split; [now left|]. reflexivity.
Qed.

(** ** The three actions *)

Ltac action_counts :=
  unfold count; cbn [List.filter length is_write is_log is_error_log last].

Ltac action_returns :=
  match goal with
  | as_it_should := _ |- _ =>
      subst as_it_should; cbv beta; cbn [result emitted];
      action_counts; repeat split; lia
  end.

Ltac action_raises e :=
  match goal with
  | as_it_should := _ |- context [Requested ?r (Some e)] =>
      destruct (is_ApiException e) eqn:He; cbn [result final emitted app];
      subst as_it_should; cbv beta; cbn [result emitted];
      rewrite ?He; action_counts;
      (split; [lia|]); (split; [reflexivity|]); (split; [reflexivity|]);
      exists r; reflexivity
  end.

(** X23: each of [create_lfr_deployment], [scale_lfr_deployment] and
    [delete_lfr_deployment] sends at most one write to the cluster, exactly
    one when it returns; it logs one line when it returns and one error
    line when it raises an [ApiException], and none for any other
    exception; what it raises is the exception of the request that failed,
    unchanged; and [scale_lfr_deployment] sends no write when it cannot
    read the deployment. *)
Theorem actions_log_once_and_reraise self (s : string) (replicas : Z) w :
  let as_it_should (o : Outcome World unit) : Prop :=
    (count is_write (emitted o) <= 1)%nat
    /\ match result o with
       | Ok _ =>
           count is_write (emitted o) = 1%nat
           /\ count is_log (emitted o) = 1%nat
           /\ count is_error_log (emitted o) = 0%nat
       | Raise e =>
           count is_log (emitted o) = (if is_ApiException e then 1 else 0)%nat
           /\ count is_error_log (emitted o) = count is_log (emitted o)
           /\ exists r, last (emitted o)
                        = Some (if is_ApiException e
                                then Log "LMMController" ERROR
                                       (match r with
                                        | create_request _ _ => MsgCreateFailed e
                                        | delete_request _ _ => MsgDeleteFailed e
                                        | _ => MsgScaleFailed e
                                        end)
                                else Requested r (Some e))
       end in
  as_it_should (create_lfr_deployment self s replicas w)
  /\ as_it_should (scale_lfr_deployment self s replicas w)
  /\ as_it_should (delete_lfr_deployment self s w)
  /\ (forall w1 e,
        read_namespaced_deployment (lfr s) (namespace self) w = (w1, Raise e) ->
        count is_write (emitted (scale_lfr_deployment self s replicas w)) = 0%nat
        /\ result (scale_lfr_deployment self s replicas w) = Raise e).
Proof.
  intros as_it_should. split; [|split; [|split]].
  - unfold create_lfr_deployment, bind, try_except, request, log, emit, raise.
    cbn [result final emitted fst snd app].
    destruct (create_namespaced_deployment _ _ w) as [w1 [[]|e]];
      cbn [result final emitted fst snd app failure_of].
    + action_returns.
    + action_raises e.
  - unfold scale_lfr_deployment, bind, try_except, request, log, emit, raise.
    cbn [result final emitted fst snd app].
    destruct (read_namespaced_deployment _ _ w) as [w1 [d|e]];
      cbn [result final emitted fst snd app failure_of].
    + destruct (patch_namespaced_deployment _ _ _ w1) as [w2 [[]|e]];
        cbn [result final emitted fst snd app failure_of].
      * action_returns.
      * action_raises e.
    + action_raises e.
  - unfold delete_lfr_deployment, bind, try_except, request, log, emit, raise.
    cbn [result final emitted fst snd app].
    destruct (delete_namespaced_deployment _ _ w) as [w1 [[]|e]];
      cbn [result final emitted fst snd app failure_of].
    + action_returns.
    + action_raises e.
  - intros w1 e Hread.
    unfold scale_lfr_deployment, bind, try_except, request, log, emit, raise.
    cbn [result final emitted fst snd app]. rewrite Hread.
    cbn [result final emitted fst snd app failure_of].
    destruct (is_ApiException e); cbn [result final emitted app];
      split; reflexivity.
Qed.

(** ** What a run can emit *)

Ltac by_event ev :=
  destruct ev as [r ?|? l m| | |];
  [destruct r; try match goal with b : PatchBody |- _ => destruct b end
  |destruct l, m| | |];
  simpl; try congruence.

Lemma emitted_bind_Forall {A B} (P : Event -> Prop) (m : M World A)
    (k : A -> M World B) w :
  Forall P (emitted (m w)) ->
  (forall a w', Forall P (emitted (k a w'))) ->
  Forall P (emitted (bind m k w)).
Proof.
  intros Hm Hk. rewrite bind_eq.
  destruct (result (m w)); cbn [prepend emitted]; [|exact Hm].
  apply Forall_app. split; [exact Hm|apply Hk].
Qed.

Lemma emitted_try_except_Forall {A} (P : Event -> Prop) (body : M World A)
    classes handler w :
  Forall P (emitted (body w)) ->
  (forall e w', Forall P (emitted (handler e w'))) ->
  Forall P (emitted (try_except body classes handler w)).
Proof.
  intros Hb Hh. rewrite (try_except_run _ _ _ _ _ eq_refl).
  destruct (result (body w)); [exact Hb|].
  destruct (classes e); [|exact Hb].
  cbn [prepend emitted]. apply Forall_app. split; [exact Hb|apply Hh].
Qed.

Lemma emitted_for_each_Forall {A} (P : Event -> Prop) (l : list A)
    (body : A -> M World unit) :
  (forall x w, Forall P (emitted (body x w))) ->
  forall w, Forall P (emitted (for_each l body w)).
Proof.
  intros Hbody. induction l as [|x rest IH]; intros w; [constructor|].
  cbn [for_each]. apply emitted_bind_Forall; [apply Hbody|]. intros _ w'. apply IH.
Qed.

Lemma probe_event_is_recovery_event ev :
  is_probe_event ev = true -> is_recovery_event ev = true.
Proof. by_event ev. Qed.

Lemma probe_event_is_monitor_event ev :
  is_probe_event ev = true -> is_monitor_event ev = true.
Proof. by_event ev. Qed.

Lemma recovery_event_not_mutation ev :
  is_recovery_event ev = true -> is_mutation ev = false.
Proof. by_event ev. Qed.

Lemma monitor_event_not_mutation ev :
  is_monitor_event ev = true -> is_mutation ev = false.
Proof. by_event ev. Qed.

Lemma recovery_event_not_warning ev :
  is_recovery_event ev = true -> is_unhealthy_warning ev = false.
Proof. by_event ev. Qed.

Lemma probe_event_not_refused ev :
  is_probe_event ev = true -> is_refused_attempt ev = false.
Proof. by_event ev. Qed.

Lemma recovery_attempt_events self (s : string) k w :
  Forall (fun ev => is_recovery_event ev = true) (emitted (recovery_attempt self s k w)).
Proof.
  assert (Hcheck : forall w', Forall (fun ev => is_recovery_event ev = true)
                                (emitted (_check_endpoint_health self s w'))).
  { intros w'. eapply List.Forall_impl; [|apply check_endpoint_health_events].
    apply probe_event_is_recovery_event. }
  destruct (read_namespaced_deployment (lfr s) (namespace self) w)
    as [w1 [d|e]] eqn:Hread.
  - destruct (patch_namespaced_deployment (lfr s) (namespace self)
                (RestartPatch (strftime w1)) w1) as [w2 [[]|e]] eqn:Hpatch.
    + rewrite (recovery_attempt_restarted _ _ _ _ _ _ _ Hread Hpatch).
      cbn [emitted]. apply Forall_app. split; [repeat constructor|].
      apply Forall_app. split; [apply Hcheck|].
      destruct (endpointHealthy self s (sleep 10 w2)); repeat constructor.
    + rewrite (recovery_attempt_patch_refused _ _ _ _ _ _ _ _ Hread Hpatch).
      destruct (is_ApiException e); repeat constructor.
  - rewrite (recovery_attempt_read_refused _ _ _ _ _ _ Hread).
    destruct (is_ApiException e); repeat constructor.
Qed.

Lemma retry_loop_events self (s : string) : forall (n : nat) rc w,
  Z.to_nat (max_retries - rc) = n ->
  Forall (fun ev => is_recovery_event ev = true) (emitted (retry_loop self s rc w)).
Proof.
  induction n as [|n IH]; intros rc w Hn.
  - rewrite retry_loop_exhausted by lia. repeat constructor.
  - assert (Hrc : rc < max_retries) by lia.
    rewrite (retry_loop_turn _ _ _ _ Hrc). cbv zeta.
    pose proof (recovery_attempt_events self s (rc + 1) w) as Ha.
    destruct (result (recovery_attempt self s (rc + 1) w)) as [[|]|e];
      cbn [prepend emitted]; try exact Ha.
    apply Forall_app. split; [|apply IH; lia].
    apply Forall_app. split; [exact Ha|repeat constructor].
Qed.

Lemma monitor_loop_events self (items : list V1Deployment) : forall hs w,
  Forall (fun ev => is_monitor_event ev = true) (emitted (monitor_loop self items hs w)).
Proof.
  induction items as [|d rest IH]; intros hs w; [constructor|].
  destruct (labels d !! "source") as [s|] eqn:Hs.
  - rewrite (monitor_loop_cons _ _ _ _ _ _ Hs). cbn [emitted].
    apply Forall_app. split.
    + eapply List.Forall_impl; [|apply check_endpoint_health_events].
      apply probe_event_is_monitor_event.
    + constructor; [reflexivity|apply IH].
  - cbn [monitor_loop]. rewrite Hs. constructor.
Qed.

Lemma monitor_lfr_health_events self w :
  Forall (fun ev => is_monitor_event ev = true) (emitted (monitor_lfr_health self w)).
Proof.
  unfold monitor_lfr_health.
  apply emitted_bind_Forall.
  { unfold reify, request. cbn [emitted]. repeat constructor. }
  intros listed w1. apply emitted_bind_Forall.
  { destruct listed as [deployments|e]; [apply monitor_loop_events|constructor]. }
  intros [hs [[]|e]] w2; [constructor|].
  destruct (is_ApiException e); [|constructor].
  apply emitted_bind_Forall; [repeat constructor|]. intros _ w3. constructor.
Qed.

(** ** Recovery time and recovery work *)

Lemma total_sleep_app (l1 l2 : list Event) :
  total_sleep (l1 ++ l2) = total_sleep l1 + total_sleep l2.
Proof.
  induction l1 as [|ev l1 IH]; [reflexivity|].
  destruct ev; cbn [app total_sleep]; rewrite IH; lia.
Qed.

Lemma total_sleep_probes (l : list Event) :
  Forall (fun ev => is_probe_event ev = true) l -> total_sleep l = 0.
Proof.
  induction 1 as [|ev l Hev _ IH]; [reflexivity|].
  destruct ev; cbn [total_sleep]; try exact IH. discriminate.
Qed.

Lemma recovery_attempt_sleep self (s : string) k w :
  let a := recovery_attempt self s k w in
  match result a with
  | Ok true =>
      total_sleep (emitted a) = 10 /\ count is_refused_attempt (emitted a) = 0%nat
  | Ok false =>
      total_sleep (emitted a) + 10 * Z.of_nat (count is_refused_attempt (emitted a)) = 10
      /\ (count is_refused_attempt (emitted a) <= 1)%nat
  | Raise _ =>
      total_sleep (emitted a) = 0 /\ count is_refused_attempt (emitted a) = 0%nat
  end.
Proof.
  cbv zeta.
  destruct (read_namespaced_deployment (lfr s) (namespace self) w)
    as [w1 [d|e]] eqn:Hread.
  - destruct (patch_namespaced_deployment (lfr s) (namespace self)
                (RestartPatch (strftime w1)) w1) as [w2 [[]|e]] eqn:Hpatch.
    + rewrite (recovery_attempt_restarted _ _ _ _ _ _ _ Hread Hpatch).
      cbn [emitted result]. rewrite !total_sleep_app, !count_app.
      rewrite (total_sleep_probes _ (check_endpoint_health_events self s (sleep 10 w2))).
      rewrite (check_endpoint_health_count self s (sleep 10 w2) is_refused_attempt
                 probe_event_not_refused).
      destruct (endpointHealthy self s (sleep 10 w2)); split; (unfold count; simpl; lia).
    + rewrite (recovery_attempt_patch_refused _ _ _ _ _ _ _ _ Hread Hpatch).
      destruct (is_ApiException e); cbn [emitted result]; split;
        (unfold count; simpl; lia).
  - rewrite (recovery_attempt_read_refused _ _ _ _ _ _ Hread).
    destruct (is_ApiException e); cbn [emitted result]; split;
      (unfold count; simpl; lia).
Qed.

Lemma retry_loop_sleep self (s : string) : forall (n : nat) rc w,
  Z.to_nat (max_retries - rc) = n ->
  let o := retry_loop self s rc w in
  0 <= total_sleep (emitted o) <= 15 * Z.of_nat (count is_attempt (emitted o))
  /\ (result o = Ok Failed ->
      total_sleep (emitted o) + 10 * Z.of_nat (count is_refused_attempt (emitted o))
      = 15 * Z.of_nat n)
  /\ (result o = Ok Healthy ->
      total_sleep (emitted o) + 10 * Z.of_nat (count is_refused_attempt (emitted o)) + 5
      = 15 * Z.of_nat (count is_attempt (emitted o))).
Proof.
  induction n as [|n IH]; intros rc w Hn; cbv zeta.
  - rewrite retry_loop_exhausted by lia. cbn [emitted result].
    repeat split; try (simpl; lia). discriminate.
  - assert (Hrc : rc < max_retries) by lia.
    rewrite (retry_loop_turn _ _ _ _ Hrc). cbv zeta.
    destruct (recovery_attempt_counts self s (rc + 1) w) as (Ha & _).
    pose proof (recovery_attempt_sleep self s (rc + 1) w) as Hs. cbv zeta in Hs.
    destruct (result (recovery_attempt self s (rc + 1) w)) as [[|]|e].
    + destruct Hs as [Hs Hr]. cbn [emitted result]. rewrite Ha, Hs, Hr.
      repeat split; try (simpl; lia). discriminate.
    + destruct Hs as [Hs Hr].
      assert (Hn' : Z.to_nat (max_retries - (rc + 1)) = n) by lia.
      destruct (IH (rc + 1) (sleep 5 (final (recovery_attempt self s (rc + 1) w))) Hn')
        as (Ib & If & Ih).
      unfold prepend. cbn [emitted result].
      rewrite !total_sleep_app, !count_app, Ha.
      change (total_sleep [Sleep 5]) with 5.
      change (count is_attempt [Sleep 5]) with 0%nat.
      change (count is_refused_attempt [Sleep 5]) with 0%nat.
      repeat split; try lia.
      * intros Hf. specialize (If Hf). lia.
      * intros Hh. specialize (Ih Hh). lia.
    + destruct Hs as [Hs Hr]. cbn [emitted result]. rewrite Ha, Hs.
      repeat split; try (simpl; lia); discriminate.
Qed.

(** X12: a recovery episode sleeps at most 45 seconds in all.  An episode
    that ends [Failed] has slept 15 for each of its three attempts, 10 less
    for each attempt cut short by an [ApiException], and that includes the
    5 after the last attempt; one that ends [Healthy] has not slept the 5
    after its last attempt. *)
Theorem recovery_blocks_for_at_most_45_seconds self (s : string) w :
  let o := _handle_unhealthy_deployment self s w in
  0 <= total_sleep (emitted o) <= 45
  /\ (result o = Ok Failed ->
      total_sleep (emitted o)
      = 45 - 10 * Z.of_nat (count is_refused_attempt (emitted o)))
  /\ (result o = Ok Healthy ->
      total_sleep (emitted o)
      = 15 * Z.of_nat (count is_attempt (emitted o)) - 5
        - 10 * Z.of_nat (count is_refused_attempt (emitted o))).
Proof.
  cbv zeta. unfold _handle_unhealthy_deployment.
  destruct (retry_loop_counts self s 3 0 w eq_refl) as (Ha & _).
  destruct (retry_loop_sleep self s 3 0 w eq_refl) as (Hb & Hf & Hh).
  repeat split; try lia.
  - intros H. specialize (Hf H). lia.
  - intros H. specialize (Hh H). lia.
Qed.

(** X13: the health check of a pass, recovery included, changes nothing of
    what is deployed: it calls none of create, scale and delete, sends no
    create or delete request and no patch of a replica count; the restart
    patch is the only write it sends. *)
Theorem health_check_never_mutates self w :
  count is_mutation (emitted (health_check self w)) = 0%nat
  /\ actions (emitted (health_check self w)) = [].
Proof.
  assert (H : Forall (fun ev => is_mutation ev = false) (emitted (health_check self w))).
  { unfold health_check. apply emitted_bind_Forall.
    - eapply List.Forall_impl; [|apply monitor_lfr_health_events].
      apply monitor_event_not_mutation.
    - intros hs w1. unfold recover_unhealthy. apply emitted_for_each_Forall.
      intros [s h] w2. cbn [fst snd]. destruct h; cbn [negb]; [constructor|].
      apply emitted_bind_Forall; [repeat constructor|]. intros _ w3.
      apply emitted_bind_Forall; [|intros _ w4; constructor].
      eapply List.Forall_impl; [|apply (retry_loop_events self s 3 0 w3 eq_refl)].
      apply recovery_event_not_mutation. }
  split; [now apply count_none|].
  induction H as [|ev l Hev _ IH]; [reflexivity|].
  unfold actions in *. cbn [omap list_omap]. destruct ev; try exact IH. discriminate.
Qed.

Lemma count_cons kind (ev : Event) (l : list Event) :
  count kind (ev :: l) = ((if kind ev then 1 else 0) + count kind l)%nat.
Proof. unfold count. cbn [List.filter]. now destruct (kind ev). Qed.

Lemma handle_unhealthy_deployment_facts self (s : string) w :
  client_raises_ApiException ->
  let o := _handle_unhealthy_deployment self s w in
  (exists state, result o = Ok state)
  /\ count is_unhealthy_warning (emitted o) = 0%nat
  /\ (count is_attempt (emitted o) <= 3)%nat
  /\ (count is_restart (emitted o) <= 3)%nat
  /\ total_sleep (emitted o) <= 45.
Proof.
  intros Hclient. cbv zeta. unfold _handle_unhealthy_deployment.
  destruct (retry_loop_counts self s 3 0 w eq_refl) as (Ha & Hr & _ & _ & Hc).
  destruct (retry_loop_sleep self s 3 0 w eq_refl) as (Hb & _).
  split; [destruct (Hc Hclient) as [H|H]; eauto|].
  split.
  { apply count_none. eapply List.Forall_impl;
      [|apply (retry_loop_events self s 3 0 w eq_refl)].
    apply recovery_event_not_warning. }
  repeat split; lia.
Qed.

Lemma recover_unhealthy_cons self (s : string) (h : bool) rest w :
  client_raises_ApiException ->
  recover_unhealthy self ((s, h) :: rest) w
  = if h then recover_unhealthy self rest w
    else prepend
           (Log "LMMController" WARNING (MsgUnhealthyDetected s)
            :: emitted (_handle_unhealthy_deployment self s w))
           (recover_unhealthy self rest
              (final (_handle_unhealthy_deployment self s w))).
Proof.
  intros Hclient. unfold recover_unhealthy. cbn [for_each fst snd].
  destruct h; cbn [negb].
  - run_step. unfold prepend. cbn [app].
    now destruct (for_each rest _ w).
  - destruct (handle_unhealthy_deployment_facts self s w Hclient) as ([state Hres] & _).
    assert (Hbody :
      bind (log "LMMController" WARNING (MsgUnhealthyDetected s))
        (fun _ => bind (_handle_unhealthy_deployment self s) (fun _ => ret tt)) w
      = {| final := final (_handle_unhealthy_deployment self s w);
           emitted := Log "LMMController" WARNING (MsgUnhealthyDetected s)
                      :: emitted (_handle_unhealthy_deployment self s w);
           result := Ok tt |}).
    { run_step. rewrite bind_eq, Hres. unfold prepend, ret.
      cbn [final emitted result app]. now rewrite app_nil_r. }
    rewrite bind_eq, Hbody. reflexivity.
Qed.

(** X14: with a cluster client that fails only by [ApiException], the
    recovery part of a pass never raises; it logs one warning per source
    the health dict reports unhealthy and leaves the healthy ones alone, so
    it makes at most 3 attempts and 3 restarts and sleeps at most 45
    seconds per unhealthy source, and does nothing when there is none. *)
Theorem recovery_work_is_bounded self (health_status : list (string * bool)) w :
  client_raises_ApiException ->
  let o := recover_unhealthy self health_status w in
  result o = Ok tt
  /\ count is_unhealthy_warning (emitted o) = length (unhealthy health_status)
  /\ (count is_attempt (emitted o) <= 3 * length (unhealthy health_status))%nat
  /\ (count is_restart (emitted o) <= 3 * length (unhealthy health_status))%nat
  /\ total_sleep (emitted o) <= 45 * Z.of_nat (length (unhealthy health_status))
  /\ (unhealthy health_status = [] -> emitted o = []).
Proof.
  intros Hclient. cbv zeta. revert w.
  induction health_status as [|[s h] rest IH]; intros w.
  - repeat split; auto; simpl; lia.
  - rewrite (recover_unhealthy_cons _ _ _ _ _ Hclient).
    destruct h.
    + exact (IH w).
    + destruct (handle_unhealthy_deployment_facts self s w Hclient)
        as (_ & Hw & Ha & Hr & Hs).
      destruct (IH (final (_handle_unhealthy_deployment self s w)))
        as (Ires & Iw & Ia & Ir & Is & _).
      unfold prepend, unhealthy in *. cbn [emitted result List.filter snd negb List.map length].
      rewrite !count_app, !total_sleep_app, !count_cons.
      cbn [is_unhealthy_warning is_attempt is_restart total_sleep].
      repeat split; try lia; try exact Ires.
      intros Hnone. discriminate Hnone.
Qed.

End Coverage.

(** * Properties of the stand-alone health monitor *)

Section HealthMonitorProperties.

Import Tracing HealthMonitor.

Context {World : Type} `{!Machine World}.

Implicit Types (w : World) (e : exn).

Lemma tally_app kind (l1 l2 : list Event) :
  tally kind (l1 ++ l2) = (tally kind l1 + tally kind l2)%nat.
Proof. unfold tally. now rewrite List.filter_app, length_app. Qed.

Lemma tally_cons kind (ev : Event) (l : list Event) :
  tally kind (ev :: l) = ((if kind ev then 1 else 0) + tally kind l)%nat.
Proof. unfold tally. cbn [List.filter]. now destruct (kind ev). Qed.

Lemma tally_nil kind : tally kind [] = 0%nat.
Proof. reflexivity. Qed.

Ltac tallies := repeat (rewrite tally_app || rewrite tally_cons || rewrite tally_nil).

Lemma check_health_cases (lfr_instance : LfrInstance) w :
  check_health lfr_instance w
  = match get (lfr_url lfr_instance) w with
    | (w', Ok status_code) =>
        {| after := w';
           trace :=
             [Got (lfr_url lfr_instance) None;
              if (status_code =? 200)%Z
              then Logged "LFRHealthCheck" INFO (LineHealthy (lfr_name lfr_instance))
              else Logged "LFRHealthCheck" WARNING
                     (LineUnhealthy (lfr_name lfr_instance) status_code)];
           outcome := Ok (status_code =? 200)%Z |}
    | (w', Raise e) =>
        {| after := w';
           trace :=
             [Got (lfr_url lfr_instance) (Some e);
              Logged "LFRHealthCheck" ERROR (LineCheckError (lfr_name lfr_instance) e)];
           outcome := Ok false |}
    end.
Proof.
  unfold check_health, try_except, bind, ask, log, emit, ret, preceded.
  cbn [after trace outcome app].
  destruct (get (lfr_url lfr_instance) w) as [w' [status_code|e]];
    cbn [after trace outcome app fst snd is_Exception].
  - now destruct (status_code =? 200)%Z.
  - reflexivity.
Qed.

(** X15: [check_health] never raises and sends one request and logs one
    line; it answers [True] exactly when the request was answered with
    status 200, so a refused connection or any other exception counts as
    unhealthy. *)
Theorem check_health_fails_closed (lfr_instance : LfrInstance) w :
  let r := check_health lfr_instance w in
  (exists healthy, outcome r = Ok healthy)
  /\ (outcome r = Ok true <-> snd (get (lfr_url lfr_instance) w) = Ok 200)
  /\ tally is_got (trace r) = 1%nat
  /\ length (trace r) = 2%nat
  /\ (outcome r = Ok false <-> tally is_found_unhealthy (trace r) = 1%nat).
Proof.
  cbv zeta. rewrite check_health_cases.
  destruct (get (lfr_url lfr_instance) w) as [w' [status_code|e]];
    cbn [outcome trace snd].
  - destruct (status_code =? 200)%Z eqn:Hs.
    + apply Z.eqb_eq in Hs. subst. repeat split; eauto; discriminate.
    + apply Z.eqb_neq in Hs. repeat split; eauto; try discriminate.
      intros [= H]. contradiction.
  - repeat split; eauto; discriminate.
Qed.

Lemma restart_instance_cases (instance_name : string) w :
  restart_instance instance_name w
  = match run (docker_restart instance_name) w with
    | (w', Ok _) =>
        {| after := w';
           trace := [Logged "LFRRestart" INFO (LineDockerAttempt instance_name);
                     Ran (docker_restart instance_name) None;
                     Logged "LFRRestart" INFO (LineDockerDone instance_name)];
           outcome := Ok true |}
    | (w', Raise e) =>
        if is_CalledProcessError e
        then {| after := w';
                trace := [Logged "LFRRestart" INFO (LineDockerAttempt instance_name);
                          Ran (docker_restart instance_name) (Some e);
                          Logged "LFRRestart" ERROR (LineDockerFailed instance_name e)];
                outcome := Ok false |}
        else {| after := w';
                trace := [Logged "LFRRestart" INFO (LineDockerAttempt instance_name);
                          Ran (docker_restart instance_name) (Some e)];
                outcome := Raise e |}
    end.
Proof.
  unfold restart_instance, try_except, bind, ask, log, emit, ret, preceded.
  cbn [after trace outcome app].
  destruct (run (docker_restart instance_name) w) as [w' [[]|e]];
    cbn [after trace outcome app fst snd].
  - reflexivity.
  - now destruct (is_CalledProcessError e).
Qed.

(** One turn of the attempts loop. *)
Lemma restart_attempts_cons (lfr_instance : LfrInstance) max_retries attempt rest w :
  let i := restart_instance (lfr_name lfr_instance) w in
  restart_attempts lfr_instance max_retries (attempt :: rest) w
  = preceded
      (Logged "LFRRetry" INFO (LineRestartAttempt (lfr_name lfr_instance) (attempt + 1))
       :: trace i)
      match outcome i with
      | Ok true =>
          {| after := after i;
             trace := [Logged "LFRRetry" INFO (LineRestarted (lfr_name lfr_instance))];
             outcome := Ok tt |}
      | Ok false =>
          preceded [Slept 5]
            (restart_attempts lfr_instance max_retries rest (pause 5 (after i)))
      | Raise e => {| after := after i; trace := []; outcome := Raise e |}
      end.
Proof.
  cbv zeta. cbn [restart_attempts]. unfold bind at 1.
  cbn [log emit outcome trace after]. unfold bind at 1.
  destruct (outcome (restart_instance (lfr_name lfr_instance) w)) as [[|]|e].
  - reflexivity.
  - unfold bind at 1. cbn [time_sleep outcome trace after]. unfold preceded.
    cbn [after trace outcome app]. reflexivity.
  - unfold preceded. cbn [after trace outcome app]. now rewrite app_nil_r.
Qed.

Lemma restart_instance_tallies (instance_name : string) w :
  let i := restart_instance instance_name w in
  tally is_ran (trace i) = 1%nat
  /\ tally is_given_up (trace i) = 0%nat
  /\ tally is_got (trace i) = 0%nat
  /\ tally is_slept (trace i) = 0%nat
  /\ tally is_ran_well (trace i) = (if outcome i is Ok true then 1 else 0)%nat
  /\ (run_raises_CalledProcessError -> exists b, outcome i = Ok b).
Proof.
  cbv zeta. rewrite restart_instance_cases.
  destruct (run (docker_restart instance_name) w) as [w' [[]|e]] eqn:Hrun.
  - repeat split; eauto.
  - destruct (is_CalledProcessError e) eqn:He; repeat split; eauto.
    intros Hcpe. specialize (Hcpe (docker_restart instance_name) w e).
    rewrite Hrun in Hcpe. specialize (Hcpe eq_refl). congruence.
Qed.

Lemma restart_attempts_tallies (lfr_instance : LfrInstance) max_retries
    (attempts : list Z) : forall w,
  let r := restart_attempts lfr_instance max_retries attempts w in
  (tally is_ran (trace r) <= length attempts)%nat
  /\ tally is_got (trace r) = 0%nat
  /\ (tally is_slept (trace r) <= tally is_ran (trace r))%nat
  /\ (outcome r = Ok tt ->
      (tally is_ran_well (trace r) + tally is_given_up (trace r) = 1)%nat
      /\ (tally is_given_up (trace r) = 1%nat ->
          tally is_ran (trace r) = length attempts))
  /\ (run_raises_CalledProcessError -> outcome r = Ok tt).
Proof.
  induction attempts as [|attempt rest IH]; intros w; cbv zeta.
  - cbn [restart_attempts log emit trace outcome length].
    repeat split; auto.
  - rewrite restart_attempts_cons. cbv zeta.
    destruct (restart_instance_tallies (lfr_name lfr_instance) w)
      as (Hran & Hup & Hgot & Hslept & Hwell & Hok).
    destruct (outcome (restart_instance (lfr_name lfr_instance) w)) as [[|]|e] eqn:Hi;
      unfold preceded; cbn [trace outcome length].
    + tallies. rewrite Hran, Hup, Hgot, Hslept, Hwell.
      cbn [is_ran is_got is_slept is_ran_well is_given_up].
      repeat split; auto; try lia.
    + destruct (IH (pause 5 (after (restart_instance (lfr_name lfr_instance) w))))
        as (Iran & Igot & Islept & Iok & Icpe).
      tallies. rewrite Hran, Hup, Hgot, Hslept, Hwell.
      cbn [is_ran is_got is_slept is_ran_well is_given_up].
      split; [lia|]. split; [lia|]. split; [lia|]. split; [|exact Icpe].
      intros Hdone. destruct (Iok Hdone) as [Hone Hall].
      split; [lia|]. intros Hgiven. rewrite Hall; lia.
    + tallies. rewrite Hran, Hup, Hgot, Hslept, Hwell.
      cbn [is_ran is_got is_slept is_ran_well is_given_up].
      repeat split; auto; try lia; try discriminate.
      intros Hcpe. destruct (Hok Hcpe) as [b Hb]. discriminate.
Qed.

Lemma retry_restart_cons (lfr_instance : LfrInstance) rest max_retries w :
  let a := restart_attempts lfr_instance max_retries (range max_retries) w in
  retry_restart (lfr_instance :: rest) max_retries w
  = match outcome a with
    | Ok _ => preceded (trace a) (retry_restart rest max_retries (after a))
    | Raise e => {| after := after a; trace := trace a; outcome := Raise e |}
    end.
Proof. reflexivity. Qed.

Lemma range_length (n : Z) : length (range n) = Z.to_nat n.
Proof. unfold range. apply length_seqZ. Qed.

Lemma range_empty (n : Z) : n <= 0 -> range n = [].
Proof.
  intros Hn. apply length_zero_iff_nil. rewrite range_length. lia.
Qed.

Lemma retry_restart_tallies max_retries (instances : list LfrInstance) : forall w,
  let r := retry_restart instances max_retries w in
  (tally is_ran (trace r) <= length instances * Z.to_nat max_retries)%nat
  /\ tally is_got (trace r) = 0%nat
  /\ (tally is_slept (trace r) <= tally is_ran (trace r))%nat
  /\ (run_raises_CalledProcessError ->
      outcome r = Ok tt
      /\ (tally is_ran_well (trace r) + tally is_given_up (trace r)
          = length instances)%nat).
Proof.
  induction instances as [|lfr_instance rest IH]; intros w; cbv zeta.
  - cbn. repeat split; auto.
  - rewrite retry_restart_cons. cbv zeta.
    destruct (restart_attempts_tallies lfr_instance max_retries (range max_retries) w)
      as (Hran & Hgot & Hslept & Hok & Hcpe).
    rewrite range_length in Hran.
    destruct (outcome (restart_attempts lfr_instance max_retries (range max_retries) w))
      as [[]|e] eqn:Ha.
    + destruct (IH (after (restart_attempts lfr_instance max_retries
                             (range max_retries) w)))
        as (Iran & Igot & Islept & Icpe).
      destruct (Hok eq_refl) as [Hone _].
      unfold preceded. cbn [trace outcome length]. tallies.
      split; [lia|]. split; [lia|]. split; [lia|].
      intros H. destruct (Icpe H) as [Ires Ione]. split; [exact Ires|lia].
    + cbn [trace outcome length].
      split; [lia|]. split; [exact Hgot|]. split; [exact Hslept|].
      intros H. specialize (Hcpe H). discriminate.
Qed.

(** X16: [retry_restart] runs [docker restart] at most [max_retries] times
    per instance, sends no health request, and sleeps at most once per
    run; with [max_retries] zero or negative it runs nothing and only logs,
    for every instance, that it failed to restart it. *)
Theorem retry_restart_is_bounded (instances : list LfrInstance) max_retries w :
  let r := retry_restart instances max_retries w in
  (tally is_ran (trace r) <= length instances * Z.to_nat max_retries)%nat
  /\ tally is_got (trace r) = 0%nat
  /\ (tally is_slept (trace r) <= tally is_ran (trace r))%nat
  /\ (max_retries <= 0 ->
      r = {| after := w;
             trace :=
               List.map
                 (fun i => Logged "LFRRetry" ERROR
                             (LineRestartGivenUp (lfr_name i) max_retries))
                 instances;
             outcome := Ok tt |}).
Proof.
  cbv zeta.
  destruct (retry_restart_tallies max_retries instances w) as (Hran & Hgot & Hslept & _).
  split; [exact Hran|]. split; [exact Hgot|]. split; [exact Hslept|].
  intros Hmax. clear Hran Hgot Hslept.
  induction instances as [|i rest IH]; [reflexivity|].
  rewrite retry_restart_cons. cbv zeta. rewrite (range_empty _ Hmax).
  cbn [restart_attempts log emit outcome trace after]. rewrite IH. reflexivity.
Qed.

(** X17: when [subprocess.run] fails only by [CalledProcessError],
    [retry_restart] never raises, and every instance ends in exactly one of
    two ways: one [docker restart] that went through, after which it is
    left alone, or the line that says it could not be restarted. *)
Theorem every_instance_is_restarted_or_given_up (instances : list LfrInstance)
    max_retries w :
  run_raises_CalledProcessError ->
  let r := retry_restart instances max_retries w in
  outcome r = Ok tt
  /\ (tally is_ran_well (trace r) + tally is_given_up (trace r)
      = length instances)%nat.
Proof.
  intros Hcpe. cbv zeta.
  destruct (retry_restart_tallies max_retries instances w) as (_ & _ & _ & H).
  exact (H Hcpe).
Qed.

Lemma check_health_tallies (lfr_instance : LfrInstance) w :
  let c := check_health lfr_instance w in
  exists healthy : bool,
    outcome c = Ok healthy
    /\ tally is_got (trace c) = 1%nat
    /\ tally is_ran (trace c) = 0%nat
    /\ tally is_found_unhealthy (trace c) = (if healthy then 0 else 1)%nat.
Proof.
  cbv zeta. rewrite check_health_cases.
  destruct (get (lfr_url lfr_instance) w) as [w' [status_code|e]].
  - exists (status_code =? 200)%Z. cbn [outcome trace].
    destruct (status_code =? 200)%Z; repeat split.
  - exists false. repeat split.
Qed.

Lemma check_instances_cons (lfr : LfrInstance) rest unhealthy_instances w :
  let c := check_health lfr w in
  check_instances (lfr :: rest) unhealthy_instances w
  = match outcome c with
    | Ok true => preceded (trace c) (check_instances rest unhealthy_instances (after c))
    | Ok false =>
        preceded (trace c)
          (check_instances rest (unhealthy_instances ++ [lfr]) (after c))
    | Raise e => {| after := after c; trace := trace c; outcome := Raise e |}
    end.
Proof.
  cbv zeta. cbn [check_instances]. unfold bind.
  now destruct (outcome (check_health lfr w)) as [[|]|e].
Qed.

Lemma monitor_passes_S (n : nat) (instances unhealthy_instances : list LfrInstance) w :
  let p := monitor_pass instances unhealthy_instances w in
  monitor_passes (S n) instances unhealthy_instances w
  = match outcome p with
    | Ok found => preceded (trace p) (monitor_passes n instances found (after p))
    | Raise e => {| after := after p; trace := trace p; outcome := Raise e |}
    end.
Proof. reflexivity. Qed.

Lemma check_instances_tallies (instances : list LfrInstance) :
  forall (unhealthy_instances : list LfrInstance) w,
  let c := check_instances instances unhealthy_instances w in
  exists found,
    outcome c = Ok found
    /\ length found
       = (length unhealthy_instances + tally is_found_unhealthy (trace c))%nat
    /\ tally is_got (trace c) = length instances
    /\ tally is_ran (trace c) = 0%nat.
Proof.
  induction instances as [|lfr rest IH]; intros unhealthy_instances w; cbv zeta.
  - exists unhealthy_instances. cbn. repeat split; lia.
  - rewrite check_instances_cons. cbv zeta.
    destruct (check_health_tallies lfr w) as (healthy & Hres & Hgot & Hran & Hfound).
    rewrite Hres.
    destruct healthy.
    + destruct (IH unhealthy_instances (after (check_health lfr w)))
        as (found & Ires & Ilen & Igot & Iran).
      exists found. unfold preceded. cbn [outcome trace length]. tallies.
      rewrite Hgot, Hran, Hfound. repeat split; auto; lia.
    + destruct (IH (unhealthy_instances ++ [lfr]) (after (check_health lfr w)))
        as (found & Ires & Ilen & Igot & Iran).
      exists found. unfold preceded. cbn [outcome trace length]. tallies.
      rewrite Hgot, Hran, Hfound. rewrite length_app in Ilen. cbn [length] in Ilen.
      repeat split; auto; lia.
Qed.

Lemma monitor_pass_eq (instances : list LfrInstance) w :
  let c := check_instances instances [] w in
  monitor_pass instances [] w
  = match outcome c with
    | Ok [] =>
        preceded (trace c)
          {| after := pause 60 (after c); trace := [Slept 60]; outcome := Ok [] |}
    | Ok (u :: us) =>
        let r := retry_restart (u :: us) 3 (after c) in
        preceded (trace c)
          match outcome r with
          | Ok _ =>
              {| after := pause 60 (after r); trace := trace r ++ [Slept 60];
                 outcome := Ok [] |}
          | Raise e => {| after := after r; trace := trace r; outcome := Raise e |}
          end
    | Raise e => {| after := after c; trace := trace c; outcome := Raise e |}
    end.
Proof.
  cbv zeta. unfold monitor_pass, bind.
  destruct (outcome (check_instances instances [] w)) as [[|u us]|e]; [| |reflexivity].
  - reflexivity.
  - destruct (outcome (retry_restart (u :: us) 3
                         (after (check_instances instances [] w)))) as [[]|e] eqn:Hr;
      cbn [outcome trace after preceded ret time_sleep]; rewrite ?Hr;
      cbn [outcome trace after preceded ret time_sleep]; rewrite ?app_nil_r;
      reflexivity.
Qed.

Lemma monitor_pass_structure (instances : list LfrInstance) w :
  let r := monitor_pass instances [] w in
  exists checks restarts,
    trace r = checks ++ restarts
    /\ tally is_got checks = length instances
    /\ tally is_ran checks = 0%nat
    /\ tally is_got restarts = 0%nat
    /\ (tally is_ran restarts <= 3 * tally is_found_unhealthy checks)%nat
    /\ (tally is_found_unhealthy checks = 0%nat -> restarts = [Slept 60])
    /\ (forall unhealthy_instances,
          outcome r = Ok unhealthy_instances -> unhealthy_instances = []).
Proof.
  cbv zeta. rewrite monitor_pass_eq. cbv zeta.
  destruct (check_instances_tallies instances [] w) as (found & Hres & Hlen & Hgot & Hran).
  rewrite Hres. cbn [length Nat.add] in Hlen.
  exists (trace (check_instances instances [] w)).
  destruct found as [|u us].
  - exists [Slept 60]. cbn [preceded trace outcome].
    repeat split; auto; try (cbn; lia). now intros l [= <-].
  - destruct (retry_restart_tallies 3 (u :: us) (after (check_instances instances [] w)))
      as (Rran & Rgot & _ & _).
    change (Z.to_nat 3) with 3%nat in Rran. rewrite Hlen in Rran.
    destruct (outcome (retry_restart (u :: us) 3 _)) as [[]|e] eqn:Hr.
    + exists (trace (retry_restart (u :: us) 3 (after (check_instances instances [] w)))
              ++ [Slept 60]).
      cbn [preceded trace outcome]. tallies. cbn [is_got is_ran].
      split; [reflexivity|]. split; [exact Hgot|]. split; [exact Hran|].
      split; [lia|]. split; [lia|]. split; [intros H; cbn [length] in Hlen; lia|].
      now intros l [= <-].
    + exists (trace (retry_restart (u :: us) 3 (after (check_instances instances [] w)))).
      cbn [preceded trace outcome].
      split; [reflexivity|]. split; [exact Hgot|]. split; [exact Hran|].
      split; [exact Rgot|]. split; [lia|].
      split; [intros H; cbn [length] in Hlen; lia|]. discriminate.
Qed.

(** X18: in a pass of [monitor_lfr_instances] every instance is checked
    once, and all the checks are done before the first [docker restart];
    there are at most 3 restarts per instance found unhealthy in that pass,
    none when all are healthy, in which case the pass only sleeps 60; and
    the list of unhealthy instances is empty again when the pass ends. *)
Theorem checks_come_before_restarts (instances : list LfrInstance) w :
  let r := monitor_pass instances [] w in
  exists checks restarts,
    trace r = checks ++ restarts
    /\ tally is_got checks = length instances
    /\ tally is_ran checks = 0%nat
    /\ tally is_got restarts = 0%nat
    /\ (tally is_ran restarts <= 3 * tally is_found_unhealthy checks)%nat
    /\ (tally is_found_unhealthy checks = 0%nat -> restarts = [Slept 60])
    /\ (forall unhealthy_instances,
          outcome r = Ok unhealthy_instances -> unhealthy_instances = []).
Proof. apply monitor_pass_structure. Qed.

(** X19: the stand-alone monitor has no handler around its loop: when an
    instance is found unhealthy and [subprocess.run] raises anything but
    [CalledProcessError], for instance because docker is not installed, the
    exception leaves [monitor_lfr_instances] and no further pass is made. *)
Theorem monitor_stops_when_docker_cannot_run (instances : list LfrInstance)
    (n : nat) w u us w1 e :
  outcome (check_instances instances [] w) = Ok (u :: us) ->
  run (docker_restart (lfr_name u)) (after (check_instances instances [] w))
  = (w1, Raise e) ->
  is_CalledProcessError e = false ->
  outcome (monitor_passes (S n) instances [] w) = Raise e
  /\ tally is_slept (trace (monitor_passes (S n) instances [] w)) = 0%nat
  /\ tally is_ran (trace (monitor_passes (S n) instances [] w)) = 1%nat.
Proof.
  intros Hfound Hrun Hnot.
  rewrite monitor_passes_S. cbv zeta. rewrite monitor_pass_eq. cbv zeta.
  rewrite Hfound.
  destruct (check_instances_tallies instances [] w) as (found & Hres & _ & _ & Hran).
  assert (Hslept : tally is_slept (trace (check_instances instances [] w)) = 0%nat).
  { clear. generalize (@nil LfrInstance). revert w.
    induction instances as [|lfr rest IH]; intros w l; [reflexivity|].
    rewrite check_instances_cons. cbv zeta. rewrite check_health_cases.
    destruct (get (lfr_url lfr) w) as [w' [status_code|e]]; cbn [outcome trace after].
    - destruct (status_code =? 200)%Z; unfold preceded; cbn [trace]; tallies;
        cbn [is_slept]; now rewrite IH.
    - unfold preceded; cbn [trace]; tallies; cbn [is_slept]; now rewrite IH. }
  rewrite retry_restart_cons. cbv zeta.
  change (range 3) with [0; 1; 2]. rewrite restart_attempts_cons. cbv zeta.
  rewrite restart_instance_cases, Hrun, Hnot.
  cbn [preceded outcome trace after]. rewrite app_nil_r.
  tallies. cbn [is_slept is_ran]. rewrite Hslept, Hran. repeat split.
Qed.

Lemma monitor_pass_tallies (instances : list LfrInstance) w :
  let r := monitor_pass instances [] w in
  (forall l, outcome r = Ok l -> l = [])
  /\ (tally is_ran (trace r) <= 3 * tally is_found_unhealthy (trace r))%nat
  /\ tally is_got (trace r) = length instances.
Proof.
  cbv zeta.
  destruct (monitor_pass_structure instances w)
    as (checks & restarts & Ht & Hg & Hr & Rg & Rr & _ & Hl).
  rewrite Ht. tallies. repeat split; auto; lia.
Qed.

(** X20: over any number of passes of [monitor_lfr_instances], the list of
    unhealthy instances is empty at the start of every pass, so an instance
    is restarted only for a failed check of the same pass: there are at most
    3 runs of [docker restart] per failed check in all, at most one check
    per instance and pass, and exactly that many when the passes complete. *)
Theorem restarts_answer_failed_checks (n : nat) (instances : list LfrInstance) w :
  let r := monitor_passes n instances [] w in
  (tally is_ran (trace r) <= 3 * tally is_found_unhealthy (trace r))%nat
  /\ (tally is_got (trace r) <= n * length instances)%nat
  /\ (forall unhealthy_instances,
        outcome r = Ok unhealthy_instances ->
        unhealthy_instances = []
        /\ tally is_got (trace r) = (n * length instances)%nat).
Proof.
  cbv zeta. revert w. induction n as [|n IH]; intros w.
  - cbn. split; [lia|]. split; [lia|]. now intros l [= <-].
  - rewrite monitor_passes_S. cbv zeta.
    destruct (monitor_pass_tallies instances w) as (Hl & Hr & Hg).
    destruct (outcome (monitor_pass instances [] w)) as [found|e] eqn:Ho.
    + rewrite (Hl found eq_refl).
      destruct (IH (after (monitor_pass instances [] w))) as (Ir & Ig & Il).
      unfold preceded. cbn [trace outcome]. tallies.
      split; [lia|]. split; [lia|].
      intros l Hok. destruct (Il l Hok) as [-> Hgot]. split; [reflexivity|lia].
    + cbn [trace outcome]. split; [exact Hr|]. split; [lia|]. discriminate.
Qed.

End HealthMonitorProperties.

(** * [src/logging_metrics.py] *)

Section LoggingMetricsProperties.

Import Tracing LoggingMetrics.

Context {World V : Type} `{!Registry World V}.

Variable upper : string -> string.

Implicit Types (w : World) (e : exn).

Lemma metrics_names (metric_name : string) :
  dict_get METRICS metric_name
  = if String.eqb metric_name "requests_total" then Some Counter
    else if String.eqb metric_name "errors_total" then Some Counter
    else if String.eqb metric_name "processing_time" then Some Histogram
    else if String.eqb metric_name "active_connections" then Some Gauge
    else None.
Proof.
  unfold METRICS. cbn [dict_get].
  rewrite !(String.eqb_sym _ metric_name).
  reflexivity.
Qed.

(** X21: [log] touches the registry only for the level [ERROR] (in any
    letter case): it then logs the message and increments [errors_total]
    for the component by one, and an exception of the registry leaves [log],
    which has no handler.  For every other level it hands one message to
    the logger, [debug] when the level is not one of the three known, never
    raises and leaves the world as it is. *)
Theorem log_counts_only_errors (component level message : string)
    (extra : option (list (string * string))) w :
  let r := log upper component level message extra w in
  let log_message := Message ("[" +:+ component +:+ "] " +:+ message) (given extra) in
  let counted := labels_inc "errors_total" component one w in
  (upper level = "ERROR" ->
   after r = fst counted
   /\ outcome r = snd counted
   /\ trace r
      = [Logger error log_message;
         Inc "errors_total" component one
           (match snd counted with Ok _ => None | Raise e => Some e end)])
  /\ (upper level <> "ERROR" ->
      after r = w
      /\ outcome r = Ok tt
      /\ trace r
         = [Logger (if decide (upper level = "INFO") then info
                    else if decide (upper level = "WARNING") then warning
                    else debug)
                   log_message]).
Proof.
  cbv zeta. unfold log, logger. split.
  - intros He. rewrite He.
    destruct (decide ("ERROR" = "INFO")) as [[=]|_].
    destruct (decide ("ERROR" = "WARNING")) as [[=]|_].
    destruct (decide ("ERROR" = "ERROR")) as [_|Hn]; [|now destruct Hn].
    unfold bind, emit, increment_metric. rewrite metrics_names.
    cbn [String.eqb Ascii.eqb Bool.eqb outcome after trace]. unfold ask, preceded.
    cbn [after trace outcome app].
    destruct (labels_inc "errors_total" component one w) as [w' [[]|e]];
      cbn [fst snd]; repeat split.
  - intros Hne.
    destruct (decide (upper level = "INFO")); [now repeat split|].
    destruct (decide (upper level = "WARNING")); [now repeat split|].
    destruct (decide (upper level = "ERROR")); [contradiction|now repeat split].
Qed.

(** X22: the metric operations are guarded by the table [METRICS]:
    [set_metric] reaches the registry only for [active_connections], the one
    gauge, and [observe_metric] only for [processing_time], the one
    histogram; [increment_metric] reaches it for the four names of the
    table, whatever their class.  For every other name the operation logs
    one warning, does not raise and leaves the world as it is. *)
Theorem metric_updates_are_guarded (metric_name component : string) (value : V) w :
  let warned text : Run World (Event V) unit :=
    {| after := w; trace := [Logger warning text]; outcome := Ok tt |} in
  set_metric metric_name component value w
  = (if decide (metric_name = "active_connections")
     then ask (SetTo metric_name component value)
              (labels_set metric_name component value) w
     else warned (NotAGauge metric_name))
  /\ observe_metric metric_name component value w
     = (if decide (metric_name = "processing_time")
        then ask (Observe metric_name component value)
                 (labels_observe metric_name component value) w
        else warned (NotAHistogram metric_name))
  /\ increment_metric metric_name component value w
     = (if decide (metric_name ∈ ["requests_total"; "errors_total";
                                  "processing_time"; "active_connections"])
        then ask (Inc metric_name component value)
                 (labels_inc metric_name component value) w
        else warned (MetricNotFound metric_name)).
Proof.
  cbv zeta. unfold set_metric, observe_metric, increment_metric, logger.
  rewrite metrics_names.
  destruct (String.eqb_spec metric_name "requests_total") as [->|H1].
  { repeat split. }
  destruct (String.eqb_spec metric_name "errors_total") as [->|H2].
  { repeat split. }
  destruct (String.eqb_spec metric_name "processing_time") as [->|H3].
  { repeat split. }
  destruct (String.eqb_spec metric_name "active_connections") as [->|H4].
  { repeat split. }
  destruct (decide (metric_name = "active_connections")); [contradiction|].
  destruct (decide (metric_name = "processing_time")); [contradiction|].
  destruct (decide (metric_name ∈ _)) as [Hin|_]; [|repeat split].
  exfalso. rewrite !elem_of_cons in Hin. rewrite elem_of_nil in Hin. tauto.
Qed.

End LoggingMetricsProperties.

(** * The added properties on the simulated cluster and machine *)

Module CoverageScenarios.

Import Sim.

(** X1 on a configuration file that is not valid YAML. *)
Lemma load_config_maps_read_errors_witness :
  _load_config path garbled
  = {| final := garbled;
       emitted := [Requested (open_config_request path) (Some unclosed);
                   Log "LMMController" ERROR (MsgInvalidYaml unclosed)];
       result :=
         Raise (ValueError
                  "Invalid YAML configuration: while parsing a flow mapping") |}.
Proof.
  apply (load_config_maps_read_errors path garbled garbled unclosed).
  reflexivity.
Defined.

(** X2 on a host without kube configuration. *)
Lemma init_stops_without_kube_config_witness :
  __init__ path no_kube_config
  = {| final := no_kube_config;
       emitted := [Requested load_kube_config_request (Some ConfigException);
                   Log "LMMController" ERROR (MsgKubeConfigFailed ConfigException)];
       result := Raise RuntimeError |}.
Proof.
  apply (init_stops_without_kube_config path no_kube_config no_kube_config
           ConfigException).
  reflexivity.
Defined.

(** X3 on a complete document. *)
Lemma init_builds_the_controller_witness :
  result (__init__ path (serves (configuration app1_wanted)))
  = Ok (controller app1_wanted)
  /\ count is_mutation (emitted (__init__ path (serves (configuration app1_wanted))))
     = 0%nat.
Proof.
  rewrite (init_builds_the_controller path
             (serves (configuration app1_wanted)) (serves (configuration app1_wanted))
             (serves (configuration app1_wanted)) (configuration app1_wanted)
             {["namespace" := "logging"]} "logging").
  - split; reflexivity.
  - reflexivity.
  - reflexivity.
  - reflexivity.
  - reflexivity.
  - eexists. reflexivity.
Defined.

(** X4 on a controller whose file has become invalid. *)
Lemma failed_reload_keeps_the_configuration_witness :
  result (cycle (controller app1_wanted) garbled) = Ok (controller app1_wanted)
  /\ emitted (cycle (controller app1_wanted) garbled)
     = [Requested (open_config_request path) (Some unclosed);
        Log "LMMController" ERROR (MsgInvalidYaml unclosed);
        Log "LMMController" ERROR
          (MsgControlLoopError
             (ValueError "Invalid YAML configuration: while parsing a flow mapping"));
        Sleep 60].
Proof.
  rewrite (failed_reload_keeps_the_configuration (controller app1_wanted) garbled
             (ValueError "Invalid YAML configuration: while parsing a flow mapping")).
  - split; reflexivity.
  - reflexivity.
Defined.

(** X8 on two deployments that carry the same label: one key, two gauges. *)
Lemma health_dict_keys_are_the_labels_witness :
  exists hs,
    result (monitor_lfr_health (controller []) twice) = Ok hs
    /\ List.NoDup (List.map fst hs)
    /\ (length hs <= 2)%nat
    /\ count is_gauge (emitted (monitor_lfr_health (controller []) twice)) = 2%nat.
Proof.
  destruct (health_dict_keys_are_the_labels (controller []) twice twice
              [deployment "app1" 3 (Some 3); deployment "app1" 2 (Some 1)])
    as (hs & Hres & _ & Hnd & Hlen & Hgauges).
  - reflexivity.
  - repeat constructor; eexists; reflexivity.
  - exists hs. split; [exact Hres|]. split; [exact Hnd|].
    split; [exact Hlen|exact Hgauges].
Defined.

(** X9 on a listing with a deployment that has no [source] label. *)
Lemma unlabelled_deployment_breaks_the_health_check_witness :
  result (monitor_lfr_health (controller []) with_stray) = Raise (KeyError "source")
  /\ count is_gauge (emitted (monitor_lfr_health (controller []) with_stray)) = 1%nat.
Proof.
  apply (unlabelled_deployment_breaks_the_health_check (controller []) with_stray
           with_stray [deployment "app1" 3 (Some 3)] unlabelled []).
  - reflexivity.
  - repeat constructor; eexists; reflexivity.
  - reflexivity.
Defined.

(** X11 on that desired state: nothing is created, not even [app2]. *)
Lemma source_without_minimum_raises_witness :
  exists key,
    (key = "instances" \/ key = "min")
    /\ reconcile (controller no_minimum) ∅ no_minimum (quiet no_minimum [] nobody)
       = {| final := quiet no_minimum [] nobody; emitted := [];
            result := Raise (KeyError key) |}.
Proof.
  apply (source_without_minimum_raises (controller no_minimum) ∅
           (source "app1" true None) [source "app2" true (Some 1)]
           (quiet no_minimum [] nobody)).
  - reflexivity.
  - reflexivity.
  - reflexivity.
Defined.

(** X14 on a health dict with one unhealthy source whose pods answer 503. *)
Lemma recovery_work_is_bounded_witness :
  result (recover_unhealthy (controller []) [("app1", false); ("app2", true)] sick)
  = Ok tt
  /\ count is_unhealthy_warning
       (emitted (recover_unhealthy (controller [])
                   [("app1", false); ("app2", true)] sick))
     = 1%nat.
Proof.
  destruct (recovery_work_is_bounded (controller [])
              [("app1", false); ("app2", true)] sick
              Scenarios.sim_client_raises_ApiException)
    as (Hres & Hwarned & _).
  split; [exact Hres|exact Hwarned].
Defined.

Import Tracing HealthMonitor.

(** On the simulated machine [docker restart] fails only by
    [CalledProcessError]. *)
Lemma box_run_raises_CalledProcessError :
  run_raises_CalledProcessError (World := Box).
Proof.
  intros command w e. cbn [run box snd].
  destruct (heals_at w <=? runs w + 1)%Z; [discriminate|].
  now intros [= <-].
Qed.

(** X17 on two instances and a docker that works from its second run on. *)
Lemma every_instance_is_restarted_or_given_up_witness :
  outcome (retry_restart lfr_instances 3 one_down) = Ok tt
  /\ (tally is_ran_well (trace (retry_restart lfr_instances 3 one_down))
      + tally is_given_up (trace (retry_restart lfr_instances 3 one_down))
      = 2)%nat.
Proof.
  apply (every_instance_is_restarted_or_given_up lfr_instances 3 one_down
           box_run_raises_CalledProcessError).
Defined.

(** X19 on a machine without docker, with LFR-2 answering 503. *)
Lemma monitor_stops_when_docker_cannot_run_witness :
  outcome (monitor_passes (Machine0 := no_docker) 3 lfr_instances [] one_down)
  = Raise (FileNotFoundError "docker")
  /\ tally is_slept
       (trace (monitor_passes (Machine0 := no_docker) 3 lfr_instances [] one_down))
     = 0%nat
  /\ tally is_ran
       (trace (monitor_passes (Machine0 := no_docker) 3 lfr_instances [] one_down))
     = 1%nat.
Proof.
  apply (monitor_stops_when_docker_cannot_run (Machine0 := no_docker)
           lfr_instances 2 one_down
           {| lfr_name := "LFR-2"; lfr_url := "http://lfr2.example.com/health" |}
           [] one_down (FileNotFoundError "docker")).
  - reflexivity.
  - reflexivity.
  - reflexivity.
Defined.

(** With every instance up, a pass checks both and restarts nothing. *)
Example all_up_pass :
  trace (monitor_lfr_instances 1 all_up)
  = [Got "http://lfr1.example.com/health" None;
     Logged "LFRHealthCheck" INFO (LineHealthy "LFR-1");
     Got "http://lfr2.example.com/health" None;
     Logged "LFRHealthCheck" INFO (LineHealthy "LFR-2");
     Slept 60].
Proof. vm_compute. reflexivity. Qed.

(** With the first pod answering 500, the two others are not probed. *)
Example first_pod_down_probes :
  count is_http_get (emitted (_check_endpoint_health (controller []) "app1"
                                first_pod_down)) = 1%nat
  /\ result (_check_endpoint_health (controller []) "app1" first_pod_down) = Ok false.
Proof. split; vm_compute; reflexivity. Qed.

(** A level in lower case is counted as an error too. *)
Example lower_case_error :
  LoggingMetrics.log (Registry0 := LoggingMetrics.silent)
    LoggingMetrics.ascii_upper "LFRRestart" "error" "failed" None tt
  = {| after := tt;
       trace := [LoggingMetrics.Logger LoggingMetrics.error
                   (LoggingMetrics.Message "[LFRRestart] failed" None);
                 LoggingMetrics.Inc "errors_total" "LFRRestart" 1%Z None];
       outcome := Ok tt |}.
Proof. vm_compute. reflexivity. Qed.

End CoverageScenarios.
